(** * Todo chatbot backend: intent resolver and tool registry

    A shallow embedding of [src/main.py] (the chat endpoint and its two
    extraction helpers) and [src/mcp_server.py] (the five task tools and the
    registry dispatch), with the [Task] row of [src/models.py].

    Conventions of the embedding.
    - A Python [str] is a [string]: a sequence of 8-bit characters.  The
      character classes ([\s], [\d], [.]), [str.lower] and [str.strip] are
      those Python gives to ASCII characters; non-ASCII text is held as its
      UTF-8 bytes, which the classes leave alone.  On ASCII text they are
      Python's; a property that depends on how Python classifies other
      characters is stated for ASCII text ([PyStr.isascii]).
    - A Python [int] is a [Z].  The key column of the table holds signed
      64-bit integers ([in_int64]); binding any other integer as a key
      raises in the database driver, which the embedding of [session.get]
      leaves out: a property that depends on it is stated for keys in
      range.
    - Code that can raise runs in a state-and-exception monad over the
      [world]: the task table and the clock read by [datetime.utcnow]. *)

From Stdlib Require Import Bool List ZArith Lia Ascii String DecimalString.
Import ListNotations.

Local Open Scope list_scope.
Local Open Scope string_scope.

(* ================================================================== *)
(** ** Python strings *)

Module PyStr.

(** The double quote, for literals that contain one. *)
Definition dquote : string := String (ascii_of_nat 34) "".

Definition in_range (lo hi : nat) (c : ascii) : bool :=
  (lo <=? nat_of_ascii c)%nat && (nat_of_ascii c <=? hi)%nat.

(** [str.isspace] on one ASCII character: TAB, LF, VT, FF, CR, the four
    separators FS GS RS US, and the space. *)
Definition isspace (c : ascii) : bool :=
  in_range 9 13 c || in_range 28 32 c.

Definition isdigit (c : ascii) : bool := in_range 48 57 c.

(** [c] is an ASCII character, and [s.isascii()]. *)
Definition is_ascii (c : ascii) : bool := (nat_of_ascii c <? 128)%nat.

Fixpoint isascii (s : string) : bool :=
  match s with
  | "" => true
  | String c s' => is_ascii c && isascii s'
  end.

Definition isupper (c : ascii) : bool := in_range 65 90 c.

Definition lower_char (c : ascii) : ascii :=
  if isupper c then ascii_of_nat (nat_of_ascii c + 32) else c.

(** [s.lower()] *)
Fixpoint lower (s : string) : string :=
  match s with
  | "" => ""
  | String c s' => String (lower_char c) (lower s')
  end.

(** [s.lstrip()], [s.rstrip()], [s.strip()] *)
Fixpoint lstrip (s : string) : string :=
  match s with
  | "" => ""
  | String c s' => if isspace c then lstrip s' else s
  end.

Fixpoint rstrip (s : string) : string :=
  match s with
  | "" => ""
  | String c s' =>
      match rstrip s' with
      | "" => if isspace c then "" else String c ""
      | r => String c r
      end
  end.

Definition strip (s : string) : string := rstrip (lstrip s).

(** [s.startswith(p)] *)
Fixpoint startswith (p s : string) : bool :=
  match p with
  | "" => true
  | String a p' =>
      match s with
      | "" => false
      | String b s' => Ascii.eqb a b && startswith p' s'
      end
  end.

(** [kw in s]: [kw] occurs in [s] as a contiguous substring. *)
Fixpoint contains (kw s : string) : bool :=
  startswith kw s
  || match s with
     | "" => false
     | String _ s' => contains kw s'
     end.

(** Truthiness of a [str]: non-empty. *)
Definition truthy (s : string) : bool :=
  match s with "" => false | _ => true end.

(** [sep.join(l)] *)
Fixpoint join (sep : string) (l : list string) : string :=
  match l with
  | [] => ""
  | [x] => x
  | x :: l' => x ++ sep ++ join sep l'
  end.

Definition digit_val (c : ascii) : Z := Z.of_nat (nat_of_ascii c) - 48.

Fixpoint int_acc (acc : Z) (s : string) : Z :=
  match s with
  | "" => acc
  | String c s' => int_acc (10 * acc + digit_val c) s'
  end.

(** The number a string of ASCII digits writes in base ten. *)
Definition int_of_digits (s : string) : Z := int_acc 0 s.

(** [str(n)] for an [int]. *)
Definition str_of_int (n : Z) : string := NilEmpty.string_of_int (Z.to_int n).

End PyStr.

(* ================================================================== *)
(** ** The regular expressions of [re], as far as the program uses them

    A backtracking matcher in continuation-passing style: alternatives are
    tried in the order [re] tries them (greedy repetition longest first, an
    optional part first with then without), and the first complete match
    wins.  Repetition is [c+] over a single character class, the only form in
    the program's four patterns. *)

Module Re.
Import PyStr.

Inductive cclass : Type :=
| CLit (c : ascii)   (** a literal character, under [re.IGNORECASE] *)
| CSpace             (** [\s] *)
| CDigit             (** [\d] *)
| CDot.              (** [.]: anything but a newline *)

Definition newline : ascii := ascii_of_nat 10.

Definition cmatch (cl : cclass) (x : ascii) : bool :=
  match cl with
  | CLit c => Ascii.eqb (lower_char x) (lower_char c)
  | CSpace => isspace x
  | CDigit => isdigit x
  | CDot => negb (Ascii.eqb x newline)
  end.

Inductive regex : Type :=
| Eps
| Chr (cl : cclass)
| Plus (cl : cclass)        (** [c+], greedy *)
| Seq (r1 r2 : regex)
| Alt (r1 r2 : regex)       (** [r1|r2] *)
| Opt (r : regex)           (** [(?:r)?], greedy *)
| Group (r : regex).        (** [(r)], the capture group 1 *)

(** A literal word. *)
Fixpoint lit (w : string) : regex :=
  match w with
  | "" => Eps
  | String c w' => Seq (Chr (CLit c)) (lit w')
  end.

(** The text consumed between the input [s] and its suffix [s1]. *)
Definition consumed (s s1 : string) : string :=
  substring 0 (String.length s - String.length s1) s.

Section Matcher.
Context {A : Type}.

Fixpoint plus_loop (cl : cclass) (s : string) (k : string -> option A)
  : option A :=
  match s with
  | "" => None
  | String x s' =>
      if cmatch cl x then
        match plus_loop cl s' k with
        | Some a => Some a
        | None => k s'
        end
      else None
  end.

(** [rmatch r s g k]: match [r] at the start of [s], with [g] the
    current text of group 1, and continue with [k] on what is left. *)
Fixpoint rmatch (r : regex) (s : string) (g : option string)
         (k : string -> option string -> option A) : option A :=
  match r with
  | Eps => k s g
  | Chr cl =>
      match s with
      | "" => None
      | String x s' => if cmatch cl x then k s' g else None
      end
  | Plus cl => plus_loop cl s (fun s' => k s' g)
  | Seq r1 r2 => rmatch r1 s g (fun s1 g1 => rmatch r2 s1 g1 k)
  | Alt r1 r2 =>
      match rmatch r1 s g k with
      | Some a => Some a
      | None => rmatch r2 s g k
      end
  | Opt r1 =>
      match rmatch r1 s g k with
      | Some a => Some a
      | None => k s g
      end
  | Group r1 => rmatch r1 s g (fun s1 _ => k s1 (Some (consumed s s1)))
  end.
End Matcher.

(** A match object, reduced to what the program reads: [group(1)], which
    is [None] when the group took no part in the match. *)
Record Match : Type := { group1 : option string }.

(** [re.match(r, s)]: a match anchored at the start of [s]. *)
Definition match_at (r : regex) (s : string) : option Match :=
  rmatch r s None (fun _ g => Some {| group1 := g |}).

(** [re.search(r, s, re.IGNORECASE)]: the match at the leftmost position
    that has one. *)
Fixpoint search (r : regex) (s : string) : option Match :=
  match match_at r s with
  | Some m => Some m
  | None =>
      match s with
      | "" => None
      | String _ s' => search r s'
      end
  end.

End Re.

(* ================================================================== *)
(** ** Exceptions, values and the monad of the tools *)

Inductive exn : Type :=
| ValueError (msg : string)
| TypeError (msg : string)
| AttributeError (msg : string)
| KeyError (key : string).

Inductive outcome (A : Type) : Type :=
| Ok (a : A)
| Raise (e : exn).
Arguments Ok {A} a.
Arguments Raise {A} e.

(** The values the tools put in their result dictionaries. *)
Inductive pyval : Type :=
| VInt (n : Z)
| VStr (s : string)
| VBool (b : bool).

(** A [dict] with string keys, in insertion order. *)
Definition dict : Type := list (string * pyval).

Module Dict.

Fixpoint lookup (k : string) (d : dict) : option pyval :=
  match d with
  | [] => None
  | (k', v) :: d' => if String.eqb k' k then Some v else lookup k d'
  end.

(** [k in d] *)
Definition mem (k : string) (d : dict) : bool :=
  match lookup k d with Some _ => true | None => false end.

(** [d.get(k, default)] *)
Definition get (k : string) (default : pyval) (d : dict) : pyval :=
  match lookup k d with Some v => v | None => default end.

(** [d[k]] *)
Definition getitem (k : string) (d : dict) : outcome pyval :=
  match lookup k d with Some v => Ok v | None => Raise (KeyError k) end.

End Dict.

(** [str(v)], as an f-string formats a value. *)
Definition py_str (v : pyval) : string :=
  match v with
  | VInt n => PyStr.str_of_int n
  | VStr s => s
  | VBool true => "True"
  | VBool false => "False"
  end.

(** Truthiness of a value. *)
Definition py_bool (v : pyval) : bool :=
  match v with
  | VInt n => negb (n =? 0)%Z
  | VStr s => PyStr.truthy s
  | VBool b => b
  end.

(** [sys.int_info.default_max_str_digits] *)
Definition max_str_digits : nat := 4300.

Definition int_limit_message (digits : nat) : string :=
  "Exceeds the limit (4300 digits) for integer string conversion: value has "
  ++ PyStr.str_of_int (Z.of_nat digits)
  ++ " digits; use sys.set_int_max_str_digits() to increase the limit".

(** [int(s)] for [s] a string of ASCII digits, the only strings the
    program converts (captures of [\d+]): the number it writes, and
    [ValueError] when it has more digits than the interpreter converts. *)
Definition py_int (s : string) : outcome Z :=
  if (String.length s <=? max_str_digits)%nat
  then Ok (PyStr.int_of_digits s)
  else Raise (ValueError (int_limit_message (String.length s))).

(** What a tool returns: one dictionary, or a list of them. *)
Inductive result : Type :=
| RDict (d : dict)
| RList (l : list dict).

(* ================================================================== *)
(** ** The task table ([src/models.py]) and the world *)

Record Task : Type := mkTask {
  id : Z;
  user_id : string;
  title : string;
  description : option string;
  completed : bool;
  created_at : Z;
  updated_at : Z
}.

(** The world the tools run in: the rows of the [task] table in table
    order, and the readings [datetime.utcnow] will give, next first. *)
Record world : Type := mkWorld {
  tasks : list Task;
  clock : nat -> Z
}.

(** Computations that read and write the world and may raise. *)
Definition M (A : Type) : Type := world -> outcome A * world.

Definition ret {A} (a : A) : M A := fun w => (Ok a, w).

Definition raise {A} (e : exn) : M A := fun w => (Raise e, w).

Definition bind {A B} (m : M A) (f : A -> M B) : M B :=
  fun w =>
    match m w with
    | (Ok a, w') => f a w'
    | (Raise e, w') => (Raise e, w')
    end.

Notation "x <- m ;; k" := (bind m (fun x => k))
  (at level 61, m at next level, right associativity).
Notation "m ;;; k" := (bind m (fun _ => k))
  (at level 61, right associativity).

(** Lift a pure outcome. *)
Definition lift {A} (o : outcome A) : M A := fun w => (o, w).

Fixpoint mapM {A B} (f : A -> M B) (l : list A) : M (list B) :=
  match l with
  | [] => ret []
  | x :: l' => y <- f x ;; ys <- mapM f l' ;; ret (y :: ys)
  end.

(** [datetime.utcnow()] *)
Definition utcnow : M Z :=
  fun w => (Ok (clock w 0%nat),
            {| tasks := tasks w; clock := fun n => clock w (S n) |}).

(** *** The session operations the tools use *)

Module Session.

(** The key an [INTEGER PRIMARY KEY] column gets on insert: 1 in an empty
    table, otherwise one more than the largest key in the table.  (When the
    largest key is the largest 64-bit integer SQLite tries unused keys at
    random; the embedding does not cover a table that full.) *)
Definition fresh_id (rows : list Task) : Z :=
  match rows with
  | [] => 1
  | t :: rest => 1 + fold_right (fun r m => Z.max (id r) m) (id t) rest
  end.

(** [session.add(task); session.commit(); session.refresh(task)] for a
    new row: the row is appended under a fresh key and read back. *)
Definition insert (mk : Z -> Task) : M Task :=
  fun w =>
    let t := mk (fresh_id (tasks w)) in
    (Ok t, {| tasks := tasks w ++ [t]; clock := clock w |}).

(** [session.exec(select(Task).where(Task.user_id == user_id)).all()] *)
Definition select_by_user (uid : string) : M (list Task) :=
  fun w => (Ok (filter (fun t => String.eqb (user_id t) uid) (tasks w)), w).

(** [session.get(Task, task_id)], for a key the driver can bind (a signed
    64-bit integer). *)
Definition get (task_id : Z) : M (option Task) :=
  fun w => (Ok (find (fun t => (id t =? task_id)%Z) (tasks w)), w).

(** [session.add(task); session.commit(); session.refresh(task)] for a
    loaded row: the row of that key is overwritten in place. *)
Definition update (t : Task) : M Task :=
  fun w =>
    (Ok t,
     {| tasks := map (fun r => if (id r =? id t)%Z then t else r) (tasks w);
        clock := clock w |}).

(** [session.delete(task); session.commit()] *)
Definition delete (t : Task) : M unit :=
  fun w =>
    (Ok tt,
     {| tasks := filter (fun r => negb (id r =? id t)%Z) (tasks w);
        clock := clock w |}).

End Session.

(* ================================================================== *)
(** ** The tools ([src/mcp_server.py]) *)

Definition not_found : exn := ValueError "Task not found".

Definition add_task_tool (uid ttl descr : string) : M dict :=
  created <- utcnow ;;
  updated <- utcnow ;;
  task <- Session.insert (fun i =>
            {| id := i; user_id := uid; title := ttl;
               description := Some descr; completed := false;
               created_at := created; updated_at := updated |}) ;;
  ret [("task_id", VInt (id task)); ("status", VStr "created");
       ("title", VStr (title task))].

Definition task_view (t : Task) : dict :=
  [("id", VInt (id t)); ("title", VStr (title t));
   ("completed", VBool (completed t))].

Definition list_tasks_tool (uid status : string) : M (list dict) :=
  rows <- Session.select_by_user uid ;;
  let rows :=
    if String.eqb status "pending" then
      filter (fun t => negb (completed t)) rows
    else if String.eqb status "completed" then
      filter (fun t => completed t) rows
    else rows in
  ret (map task_view rows).

(** The guard shared by the three tools that load a row:
    [if not task or task.user_id != user_id: raise ValueError(...)]. *)
Definition load_owned (uid : string) (task_id : Z) : M Task :=
  task <- Session.get task_id ;;
  match task with
  | None => raise not_found
  | Some t =>
      if negb (String.eqb (user_id t) uid) then raise not_found else ret t
  end.

Definition complete_task_tool (uid : string) (task_id : Z) : M dict :=
  t <- load_owned uid task_id ;;
  now <- utcnow ;;
  task <- Session.update
            {| id := id t; user_id := user_id t; title := title t;
               description := description t; completed := true;
               created_at := created_at t; updated_at := now |} ;;
  ret [("task_id", VInt (id task)); ("status", VStr "completed");
       ("title", VStr (title task))].

(** An optional parameter is [None] when the caller left it out or passed
    [None]; [if title:] holds for a string that is neither [None] nor
    empty. *)
Definition update_task_tool (uid : string) (task_id : Z)
           (ttl descr : option string) : M dict :=
  t <- load_owned uid task_id ;;
  let title' :=
    match ttl with
    | Some s => if PyStr.truthy s then s else title t
    | None => title t
    end in
  let description' :=
    match descr with
    | Some s => if PyStr.truthy s then Some s else description t
    | None => description t
    end in
  now <- utcnow ;;
  task <- Session.update
            {| id := id t; user_id := user_id t; title := title';
               description := description'; completed := completed t;
               created_at := created_at t; updated_at := now |} ;;
  ret [("task_id", VInt (id task)); ("status", VStr "updated");
       ("title", VStr (title task))].

Definition delete_task_tool (uid : string) (task_id : Z) : M dict :=
  t <- load_owned uid task_id ;;
  Session.delete t ;;;
  ret [("task_id", VInt (id t)); ("status", VStr "deleted");
       ("title", VStr (title t))].

(* ================================================================== *)
(** ** The registry and its dispatch *)

(** The keyword arguments of a call: each of the keyword names
    the tools declare is present or not, with a value of the type the input
    schemas give it. *)
Record kwargs : Type := mkKwargs {
  kw_user_id : option string;
  kw_task_id : option Z;
  kw_title : option string;
  kw_description : option string;
  kw_status : option string
}.

Definition no_kwargs : kwargs :=
  {| kw_user_id := None; kw_task_id := None; kw_title := None;
     kw_description := None; kw_status := None |}.

Definition present {A} (x : option A) : bool :=
  match x with Some _ => true | None => false end.

(** The [TypeError]s of a call whose keyword arguments do not fit the
    signature of [f]; the message names the function only. *)
Definition unexpected (f : string) : exn :=
  TypeError (f ++ "() got an unexpected keyword argument").

Definition missing (f : string) : exn :=
  TypeError (f ++ "() missing required positional argument").

(** [add_task_tool] called with the keyword arguments [kw]. *)
Definition call_add_task (kw : kwargs) : M result :=
  if present (kw_task_id kw) || present (kw_status kw) then
    raise (unexpected "add_task_tool")
  else
    match kw_user_id kw, kw_title kw with
    | Some uid, Some ttl =>
        let descr := match kw_description kw with Some d => d | None => "" end in
        d <- add_task_tool uid ttl descr ;; ret (RDict d)
    | _, _ => raise (missing "add_task_tool")
    end.

(** [list_tasks_tool] called with the keyword arguments [kw]. *)
Definition call_list_tasks (kw : kwargs) : M result :=
  if present (kw_task_id kw) || present (kw_title kw)
     || present (kw_description kw) then
    raise (unexpected "list_tasks_tool")
  else
    match kw_user_id kw with
    | Some uid =>
        let status := match kw_status kw with Some s => s | None => "all" end in
        l <- list_tasks_tool uid status ;; ret (RList l)
    | None => raise (missing "list_tasks_tool")
    end.

(** [complete_task_tool] called with the keyword arguments [kw]. *)
Definition call_complete_task (kw : kwargs) : M result :=
  if present (kw_title kw) || present (kw_description kw)
     || present (kw_status kw) then
    raise (unexpected "complete_task_tool")
  else
    match kw_user_id kw, kw_task_id kw with
    | Some uid, Some tid => d <- complete_task_tool uid tid ;; ret (RDict d)
    | _, _ => raise (missing "complete_task_tool")
    end.

(** [update_task_tool] called with the keyword arguments [kw]. *)
Definition call_update_task (kw : kwargs) : M result :=
  if present (kw_status kw) then
    raise (unexpected "update_task_tool")
  else
    match kw_user_id kw, kw_task_id kw with
    | Some uid, Some tid =>
        d <- update_task_tool uid tid (kw_title kw) (kw_description kw) ;;
        ret (RDict d)
    | _, _ => raise (missing "update_task_tool")
    end.

(** [delete_task_tool] called with the keyword arguments [kw]. *)
Definition call_delete_task (kw : kwargs) : M result :=
  if present (kw_title kw) || present (kw_description kw)
     || present (kw_status kw) then
    raise (unexpected "delete_task_tool")
  else
    match kw_user_id kw, kw_task_id kw with
    | Some uid, Some tid => d <- delete_task_tool uid tid ;; ret (RDict d)
    | _, _ => raise (missing "delete_task_tool")
    end.

(** The declared schema of a tool: parameter names with their JSON types,
    and the required ones.  It is metadata: nothing reads it. *)
Record schema : Type := mkSchema {
  properties : list (string * string);
  required : list string
}.

Record Tool : Type := mkTool {
  name : string;
  tool_description : string;
  inputSchema : schema;
  func : kwargs -> M result
}.

Definition TOOLS : list Tool :=
  [ {| name := "add_task";
       tool_description := "Create a new task";
       inputSchema :=
         {| properties := [("user_id", "string"); ("title", "string");
                           ("description", "string")];
            required := ["user_id"; "title"] |};
       func := call_add_task |};
    {| name := "list_tasks";
       tool_description := "Retrieve tasks";
       inputSchema :=
         {| properties := [("user_id", "string"); ("status", "string")];
            required := ["user_id"] |};
       func := call_list_tasks |};
    {| name := "complete_task";
       tool_description := "Mark task as complete";
       inputSchema :=
         {| properties := [("user_id", "string"); ("task_id", "integer")];
            required := ["user_id"; "task_id"] |};
       func := call_complete_task |};
    {| name := "update_task";
       tool_description := "Update task title or description";
       inputSchema :=
         {| properties := [("user_id", "string"); ("task_id", "integer");
                           ("title", "string"); ("description", "string")];
            required := ["user_id"; "task_id"] |};
       func := call_update_task |};
    {| name := "delete_task";
       tool_description := "Delete a task";
       inputSchema :=
         {| properties := [("user_id", "string"); ("task_id", "integer")];
            required := ["user_id"; "task_id"] |};
       func := call_delete_task |} ].

(** The loop of [handle_tool_call] over a tool list. *)
Fixpoint dispatch (tools : list Tool) (tool_name : string) (kw : kwargs)
  : M result :=
  match tools with
  | [] => raise (ValueError ("Tool '" ++ tool_name ++ "' not found"))
  | tool :: rest =>
      if String.eqb (name tool) tool_name then func tool kw
      else dispatch rest tool_name kw
  end.

Definition handle_tool_call (tool_name : string) (kw : kwargs) : M result :=
  dispatch TOOLS tool_name kw.

(* ================================================================== *)
(** ** The chat endpoint ([src/main.py]) *)

Module Patterns.
Import Re.

Definition seq (rs : list regex) : regex := fold_right Seq Eps rs.

Definition spaces : regex := Plus CSpace.

(** [add\s+(?:a\s+)?task\s+(?:to\s+)?(.+)] and the same with [create] *)
Definition task_to (verb : string) : regex :=
  seq [lit verb; spaces; Opt (seq [lit "a"; spaces]); lit "task"; spaces;
       Opt (seq [lit "to"; spaces]); Group (Plus CDot)].

Definition add_task_to : regex := task_to "add".
Definition create_task_to : regex := task_to "create".

(** [(.+)\s+to\s+(?:my\s+)?(?:todo|task)] *)
Definition to_my_todo : regex :=
  seq [Group (Plus CDot); spaces; lit "to"; spaces;
       Opt (seq [lit "my"; spaces]); Alt (lit "todo") (lit "task")].

(** [(?:task\s+)?(\d+)] *)
Definition task_number : regex :=
  seq [Opt (seq [lit "task"; spaces]); Group (Plus CDigit)].

End Patterns.

(** [match.group(1)] followed by a method call or a conversion: a group
    that took no part in the match is [None], and using it raises. *)
Definition group1_text (m : Re.Match) (e : exn) : outcome string :=
  match Re.group1 m with
  | Some g => Ok g
  | None => Raise e
  end.

(** The loop of [extract_task_title] over its pattern list. *)
Fixpoint first_title (patterns : list Re.regex) (message : string)
  : outcome string :=
  match patterns with
  | [] => Ok (PyStr.strip message)
  | pattern :: rest =>
      match Re.search pattern message with
      | Some m =>
          match group1_text m (AttributeError "'NoneType' object has no attribute 'strip'") with
          | Ok g => Ok (PyStr.strip g)
          | Raise e => Raise e
          end
      | None => first_title rest message
      end
  end.

Definition title_patterns : list Re.regex :=
  [Patterns.add_task_to; Patterns.create_task_to; Patterns.to_my_todo].

Definition extract_task_title (message : string) : outcome string :=
  first_title title_patterns message.

Definition extract_task_id (message : string) : outcome (option Z) :=
  match Re.search Patterns.task_number message with
  | Some m =>
      match group1_text m (TypeError "int() argument must be a string, a bytes-like object or a real number, not 'NoneType'") with
      | Ok g =>
          match py_int g with
          | Ok n => Ok (Some n)
          | Raise e => Raise e
          end
      | Raise e => Raise e
      end
  | None => Ok None
  end.

Module ChatRequest.
Record t : Type := mk {
  conversation_id : option Z;
  message : string
}.
End ChatRequest.

Module ChatResponse.
Record t : Type := mk {
  conversation_id : Z;
  response : string
}.
End ChatResponse.

Record HTTPException : Type := mkHTTPException {
  status_code : Z;
  detail : string
}.

(** The intents, one per branch of the [if]/[elif] chain. *)
Inductive intent : Type :=
| IAdd | IList | IComplete | IDelete | IUpdate | IUnknown.

(** The conditions of the chain of [chat_with_bot], on the lowercased
    message, in the order the chain tests them. *)
Definition classify (message : string) : intent :=
  if PyStr.contains "add" message || PyStr.contains "create" message then IAdd
  else if PyStr.contains "list" message || PyStr.contains "show" message then IList
  else if PyStr.contains "complete" message || PyStr.contains "done" message
          || PyStr.contains "finish" message then IComplete
  else if PyStr.contains "delete" message || PyStr.contains "remove" message then IDelete
  else if PyStr.contains "update" message || PyStr.contains "change" message then IUpdate
  else IUnknown.

Definition nl : string := String Re.newline "".

(** [result.get(key, default)] and ["task_id" in result] on what a tool
    returned; on a list the first raises [AttributeError], the second is a
    membership test among the list's elements, none of which is a string. *)
Definition result_get (key default : string) (r : result) : M string :=
  match r with
  | RDict d => ret (py_str (Dict.get key (VStr default) d))
  | RList _ => raise (AttributeError "'list' object has no attribute 'get'")
  end.

Definition result_has (key : string) (r : result) : bool :=
  match r with
  | RDict d => Dict.mem key d
  | RList _ => false
  end.

(** The reply of the complete, delete and update branches once the tool
    has returned. *)
Definition render (done : string) (r : result) : M string :=
  if result_has "task_id" r then
    ttl <- result_get "title" "Unknown" r ;; ret (done ++ ttl)
  else
    err <- result_get "error" "Unknown error" r ;; ret ("❌ " ++ err).

Definition add_branch (uid : string) (request : ChatRequest.t)
           (message : string) : M string :=
  ttl <- lift (extract_task_title message) ;;
  if PyStr.truthy ttl then
    r <- handle_tool_call "add_task"
           {| kw_user_id := Some uid; kw_task_id := None;
              kw_title := Some ttl;
              kw_description :=
                Some ("Added via chat: " ++ ChatRequest.message request);
              kw_status := None |} ;;
    t <- result_get "title" "Unknown" r ;;
    ret ("✅ Task added: " ++ t)
  else
    ret "❌ Could not extract task title. Please specify what task to add.".

Definition task_line (task : dict) : M string :=
  i <- lift (Dict.getitem "id" task) ;;
  t <- lift (Dict.getitem "title" task) ;;
  c <- lift (Dict.getitem "completed" task) ;;
  ret ("• " ++ py_str i ++ ": " ++ py_str t
       ++ " (" ++ (if py_bool c then "✅" else "⏳") ++ ")").

Definition list_branch (uid : string) (message : string) : M string :=
  let status :=
    if PyStr.contains "pending" message then "pending"
    else if PyStr.contains "completed" message || PyStr.contains "done" message
         then "completed"
    else "all" in
  r <- handle_tool_call "list_tasks"
         {| kw_user_id := Some uid; kw_task_id := None; kw_title := None;
            kw_description := None; kw_status := Some status |} ;;
  match r with
  | RList ((_ :: _) as l) =>
      lines <- mapM task_line l ;;
      ret ("📋 Your " ++ status ++ " tasks:" ++ nl ++ PyStr.join nl lines)
  | RList [] => ret ("📭 No " ++ status ++ " tasks found.")
  | RDict (_ :: _) =>
      (* iterating a dict yields its keys, and a key has no item ['id'] *)
      raise (TypeError "string indices must be integers")
  | RDict [] => ret ("📭 No " ++ status ++ " tasks found.")
  end.

(** [if task_id:] on the optional integer: neither [None] nor zero. *)
Definition id_truthy (task_id : option Z) : bool :=
  match task_id with
  | Some n => negb (n =? 0)%Z
  | None => false
  end.

Definition id_kwargs (uid : string) (task_id : option Z) (ttl : option string)
  : kwargs :=
  {| kw_user_id := Some uid; kw_task_id := task_id; kw_title := ttl;
     kw_description := None; kw_status := None |}.

Definition complete_branch (uid : string) (message : string) : M string :=
  task_id <- lift (extract_task_id message) ;;
  if id_truthy task_id then
    r <- handle_tool_call "complete_task" (id_kwargs uid task_id None) ;;
    render "✅ Task completed: " r
  else
    ret "❌ Could not identify task ID. Please specify which task to complete.".

Definition delete_branch (uid : string) (message : string) : M string :=
  task_id <- lift (extract_task_id message) ;;
  if id_truthy task_id then
    r <- handle_tool_call "delete_task" (id_kwargs uid task_id None) ;;
    render "🗑️ Task deleted: " r
  else
    ret "❌ Could not identify task ID. Please specify which task to delete.".

Definition update_branch (uid : string) (message : string) : M string :=
  task_id <- lift (extract_task_id message) ;;
  new_title <- lift (extract_task_title message) ;;
  if id_truthy task_id && PyStr.truthy new_title then
    r <- handle_tool_call "update_task"
           (id_kwargs uid task_id (Some new_title)) ;;
    render "✏️ Task updated: " r
  else
    ret "❌ Could not identify task ID or new title.".

Definition help_text : string :=
  let q := PyStr.dquote in
  "🤖 I'm your Todo AI assistant! I can help you manage tasks. Try:" ++ nl
  ++ "• " ++ q ++ "Add a task to buy groceries" ++ q ++ nl
  ++ "• " ++ q ++ "Show me all my tasks" ++ q ++ nl
  ++ "• " ++ q ++ "Mark task 1 as complete" ++ q ++ nl
  ++ "• " ++ q ++ "Delete task 2" ++ q ++ nl
  ++ "• " ++ q ++ "What's pending?" ++ q ++ " ".

(** [ChatResponse(conversation_id=request.conversation_id or 1,
    response=response)] *)
Definition reply (request : ChatRequest.t) (response : string)
  : ChatResponse.t :=
  {| ChatResponse.conversation_id :=
       match ChatRequest.conversation_id request with
       | Some c => if (c =? 0)%Z then 1%Z else c
       | None => 1%Z
       end;
     ChatResponse.response := response |}.

(** The body of the [try] block. *)
Definition chat_body (uid : string) (request : ChatRequest.t)
  : M ChatResponse.t :=
  let message := PyStr.lower (ChatRequest.message request) in
  response <-
    match classify message with
    | IAdd => add_branch uid request message
    | IList => list_branch uid message
    | IComplete => complete_branch uid message
    | IDelete => delete_branch uid message
    | IUpdate => update_branch uid message
    | IUnknown => ret help_text
    end ;;
  ret (reply request response).

Definition internal_error : HTTPException :=
  {| status_code := 500; detail := "Internal server error" |}.

(** [chat_with_bot]: the body, with [except Exception] turning whatever it
    raises into the HTTP 500 answer. *)
Definition chat_with_bot (uid : string) (request : ChatRequest.t) (w : world)
  : (HTTPException + ChatResponse.t) * world :=
  match chat_body uid request w with
  | (Ok r, w') => (inr r, w')
  | (Raise _, w') => (inl internal_error, w')
  end.

(* ================================================================== *)
(** ** The vocabulary of the properties

    What the statements below speak of: occurrence of a keyword, the
    classification rules in the words of the specification, the language of
    a pattern, the first run of digits of a message, sample worlds. *)

(** [Contains kw s]: the keyword occurs in [s], some text before it and
    some after it. *)
Definition Contains (kw s : string) : Prop :=
  exists pre suf, s = pre ++ kw ++ suf.

(** The classification rules as the specification words them: the first
    rule whose trigger words occur in the message gives the intent. *)
Inductive first_rule (m : string) : intent -> Prop :=
| rule_add :
    Contains "add" m \/ Contains "create" m ->
    first_rule m IAdd
| rule_list :
    ~ (Contains "add" m \/ Contains "create" m) ->
    Contains "list" m \/ Contains "show" m ->
    first_rule m IList
| rule_complete :
    ~ (Contains "add" m \/ Contains "create" m) ->
    ~ (Contains "list" m \/ Contains "show" m) ->
    Contains "complete" m \/ Contains "done" m \/ Contains "finish" m ->
    first_rule m IComplete
| rule_delete :
    ~ (Contains "add" m \/ Contains "create" m) ->
    ~ (Contains "list" m \/ Contains "show" m) ->
    ~ (Contains "complete" m \/ Contains "done" m \/ Contains "finish" m) ->
    Contains "delete" m \/ Contains "remove" m ->
    first_rule m IDelete
| rule_update :
    ~ (Contains "add" m \/ Contains "create" m) ->
    ~ (Contains "list" m \/ Contains "show" m) ->
    ~ (Contains "complete" m \/ Contains "done" m \/ Contains "finish" m) ->
    ~ (Contains "delete" m \/ Contains "remove" m) ->
    Contains "update" m \/ Contains "change" m ->
    first_rule m IUpdate
| rule_unknown :
    ~ (Contains "add" m \/ Contains "create" m) ->
    ~ (Contains "list" m \/ Contains "show" m) ->
    ~ (Contains "complete" m \/ Contains "done" m \/ Contains "finish" m) ->
    ~ (Contains "delete" m \/ Contains "remove" m) ->
    ~ (Contains "update" m \/ Contains "change" m) ->
    first_rule m IUnknown.

(** The branch of the chain an intent stands for. *)
Definition branch (i : intent) (uid : string) (request : ChatRequest.t)
  : M string :=
  let message := PyStr.lower (ChatRequest.message request) in
  match i with
  | IAdd => add_branch uid request message
  | IList => list_branch uid message
  | IComplete => complete_branch uid message
  | IDelete => delete_branch uid message
  | IUpdate => update_branch uid message
  | IUnknown => ret help_text
  end.

(** A sample table: one open task of user u1 under key 1. *)
Definition demo_task : Task :=
  {| id := 1; user_id := "u1"; title := "buy milk"; description := None;
     completed := false; created_at := 0; updated_at := 0 |}.

Definition demo_world : world :=
  {| tasks := [demo_task]; clock := fun n => Z.of_nat n |}.

(** The entries of a listing that carry a given title. *)
Definition titled (ttl : string) (l : list dict) : list dict :=
  filter (fun e => match Dict.lookup "title" e with
                   | Some (VStr s) => String.eqb s ttl
                   | _ => false
                   end) l.

(** The rows a listing for [uid] with filter [status] is to show. *)
Definition Listed (uid status : string) (t : Task) : Prop :=
  user_id t = uid
  /\ (status = "pending" -> completed t = false)
  /\ (status = "completed" -> completed t = true).

(** The same, decided. *)
Definition listedb (uid status : string) (t : Task) : bool :=
  String.eqb (user_id t) uid
  && (if String.eqb status "pending" then negb (completed t)
      else if String.eqb status "completed" then completed t
      else true).

(** The five tool names. *)
Definition registered : list string :=
  ["add_task"; "list_tasks"; "complete_task"; "update_task"; "delete_task"].

(** What [update_task] leaves in a field for an argument: the argument when
    it is a non-empty string, the old value otherwise. *)
Definition overwritten (arg : option string) (old : string) : string :=
  match arg with
  | Some (String c s) => String c s
  | _ => old
  end.

(** The same for the optional description. *)
Definition overwritten_opt (arg : option string) (old : option string)
  : option string :=
  match arg with
  | Some (String c s) => Some (String c s)
  | _ => old
  end.

(** Every character of [s] satisfies [p]. *)
Fixpoint all_chars (p : ascii -> bool) (s : string) : bool :=
  match s with
  | "" => true
  | String c s' => p c && all_chars p s'
  end.

(** Some character of [s] satisfies [p]. *)
Fixpoint any_char (p : ascii -> bool) (s : string) : bool :=
  match s with
  | "" => false
  | String c s' => p c || any_char p s'
  end.

(** The longest prefix of [s] in the class. *)
Fixpoint take_class (cl : Re.cclass) (s : string) : string :=
  match s with
  | "" => ""
  | String c s' => if Re.cmatch cl c then String c (take_class cl s') else ""
  end.

(** What follows that prefix. *)
Fixpoint drop_class (cl : Re.cclass) (s : string) : string :=
  match s with
  | "" => ""
  | String c s' => if Re.cmatch cl c then drop_class cl s' else s
  end.

(** [Matches r u g g']: the text [u] is matched by [r], which takes the
    capture from [g] to [g']. *)
Inductive Matches : Re.regex -> string -> option string -> option string -> Prop :=
| M_eps g : Matches Re.Eps "" g g
| M_chr cl x g : Re.cmatch cl x = true -> Matches (Re.Chr cl) (String x "") g g
| M_plus cl u g :
    u <> "" -> all_chars (Re.cmatch cl) u = true -> Matches (Re.Plus cl) u g g
| M_seq r1 r2 u1 u2 g g1 g2 :
    Matches r1 u1 g g1 -> Matches r2 u2 g1 g2 ->
    Matches (Re.Seq r1 r2) (u1 ++ u2) g g2
| M_alt_l r1 r2 u g g' : Matches r1 u g g' -> Matches (Re.Alt r1 r2) u g g'
| M_alt_r r1 r2 u g g' : Matches r2 u g g' -> Matches (Re.Alt r1 r2) u g g'
| M_opt_some r u g g' : Matches r u g g' -> Matches (Re.Opt r) u g g'
| M_opt_none r g : Matches (Re.Opt r) "" g g
| M_group r u g g' : Matches r u g g' -> Matches (Re.Group r) u g (Some u).

(** The characters a match of [r] can contain. *)
Fixpoint alphabet (r : Re.regex) (c : ascii) : bool :=
  match r with
  | Re.Eps => false
  | Re.Chr cl | Re.Plus cl => Re.cmatch cl c
  | Re.Seq r1 r2 | Re.Alt r1 r2 => alphabet r1 c || alphabet r2 c
  | Re.Opt r1 | Re.Group r1 => alphabet r1 c
  end.

(** [r] contains a capture group. *)
Fixpoint has_group (r : Re.regex) : bool :=
  match r with
  | Re.Eps | Re.Chr _ | Re.Plus _ => false
  | Re.Seq r1 r2 | Re.Alt r1 r2 => has_group r1 || has_group r2
  | Re.Opt r1 => has_group r1
  | Re.Group _ => true
  end.

(** The first run of digits of a message, computed. *)
Fixpoint first_digits (s : string) : option string :=
  match s with
  | "" => None
  | String c s' =>
      if PyStr.isdigit c then Some (String c (take_class Re.CDigit s'))
      else first_digits s'
  end.

(** [ds] is the first run of digits of [m]: digits only, at least one, no
    digit before it, and no digit right after it.  The text before the run
    and the character after it are ASCII, where a digit is one of 0 to 9. *)
Definition FirstDigitRun (m ds : string) : Prop :=
  exists pre rest,
    m = pre ++ ds ++ rest
    /\ PyStr.isascii pre = true
    /\ any_char PyStr.isdigit pre = false
    /\ ds <> ""
    /\ all_chars PyStr.isdigit ds = true
    /\ match rest with
       | "" => True
       | String c _ => PyStr.is_ascii c = true /\ PyStr.isdigit c = false
       end.

(** The integers the key column of the table holds: the signed 64-bit
    ones. *)
Definition in_int64 (n : Z) : bool :=
  (- 2 ^ 63 <=? n)%Z && (n <? 2 ^ 63)%Z.

(** [n] copies of the character [c]. *)
Fixpoint copies (n : nat) (c : ascii) : string :=
  match n with
  | O => ""
  | S n' => String c (copies n' c)
  end.

(** The ten digit characters and the numbers they write. *)
Definition digit_char (d : Z) : ascii := ascii_of_nat (48 + Z.to_nat d).

(** The optional part of the task-number pattern, [task\s+]. *)
Definition task_word : Re.regex :=
  Patterns.seq [Re.lit "task"; Patterns.spaces].

(** The message does not end in whitespace. *)
Fixpoint clean_end (s : string) : bool :=
  match s with
  | "" => true
  | String c s' =>
      match s' with
      | "" => negb (PyStr.isspace c)
      | _ => clean_end s'
      end
  end.

(** A match whose group holds more than whitespace. *)
Definition GoodMatch (a : Re.Match) : Prop :=
  exists g, Re.group1 a = Some g /\ all_chars PyStr.isspace g = false.

(** The continuation of a pattern that ends in [(.+)]. *)
Definition last_group : string -> option string -> option Re.Match :=
  fun s g =>
    Re.rmatch (Patterns.seq [Re.Group (Re.Plus Re.CDot)]) s g
      (fun _ g' => Some {| Re.group1 := g' |}).

(** [to\s+], and the end [\s+(?:to\s+)?(.+)] of the first two title
    patterns. *)
Definition to_word : Re.regex := Patterns.seq [Re.lit "to"; Patterns.spaces].

Definition title_tail : list Re.regex :=
  [Patterns.spaces; Re.Opt to_word; Re.Group (Re.Plus Re.CDot)].

(** The third title pattern after its group and the first [\s+]. *)
Definition todo_rest : list Re.regex :=
  [Re.lit "to"; Patterns.spaces; Re.Opt (Patterns.seq [Re.lit "my"; Patterns.spaces]);
   Re.Alt (Re.lit "todo") (Re.lit "task")].

(** The text [extract_task_title] trims: the capture of the first
    template that matches, the whole message when none does. *)
Definition title_source (m : string) : option string :=
  match Re.search Patterns.add_task_to m with
  | Some a => Re.group1 a
  | None =>
      match Re.search Patterns.create_task_to m with
      | Some a => Re.group1 a
      | None =>
          match Re.search Patterns.to_my_todo m with
          | Some a => Re.group1 a
          | None => Some m
          end
      end
  end.

(** The replies of the three branches that need a task id and got none. *)
Definition no_id_complete : string :=
  "❌ Could not identify task ID. Please specify which task to complete.".

Definition no_id_delete : string :=
  "❌ Could not identify task ID. Please specify which task to delete.".

Definition no_id_update : string :=
  "❌ Could not identify task ID or new title.".

(** A table with a task under key 0. *)
Definition zero_world : world :=
  {| tasks := [ {| id := 0; user_id := "u1"; title := "water plants";
                   description := None; completed := false;
                   created_at := 0; updated_at := 0 |} ];
     clock := fun n => Z.of_nat n |}.

(* ================================================================== *)
(** ** The vocabulary of the further properties *)

(** The keys of the table are pairwise different, as a primary key is. *)
Definition unique_keys (w : world) : Prop := NoDup (map id (tasks w)).

(** The row belongs to someone other than [uid]. *)
Definition other (uid : string) (t : Task) : bool :=
  negb (String.eqb (user_id t) uid).

(** The rows that do not belong to [uid]. *)
Definition rows_of_others (uid : string) (w : world) : list Task :=
  filter (other uid) (tasks w).

(** A computation that keeps the keys unique and the rows of everyone but
    [uid] as they are. *)
Definition safe_for (uid : string) {A} (m : M A) : Prop :=
  forall w,
    unique_keys w ->
    unique_keys (snd (m w))
    /\ rows_of_others uid (snd (m w)) = rows_of_others uid w.

(** A computation that leaves the world alone. *)
Definition read_only {A} (m : M A) : Prop := forall w, snd (m w) = w.

(** The row [add_task] stores in the world [w]. *)
Definition added_row (w : world) (uid ttl descr : string) : Task :=
  {| id := Session.fresh_id (tasks w); user_id := uid; title := ttl;
     description := Some descr; completed := false;
     created_at := clock w 0%nat; updated_at := clock w 1%nat |}.

(** The table of [w'] is the table of [w] with [row] appended, under a key
    the table of [w] did not hold. *)
Definition appended (w w' : world) (row : Task) : Prop :=
  tasks w' = (tasks w ++ [row])%list
  /\ ~ In (id row) (map id (tasks w)).

(** The row [complete_task] stores for the loaded row [t]. *)
Definition completed_row (w : world) (t : Task) : Task :=
  {| id := id t; user_id := user_id t; title := title t;
     description := description t; completed := true;
     created_at := created_at t; updated_at := clock w 0%nat |}.

(** The status filter the list branch reads off the message. *)
Definition chat_status (message : string) : string :=
  if PyStr.contains "pending" message then "pending"
  else if PyStr.contains "completed" message || PyStr.contains "done" message
       then "completed"
  else "all".

(** The line of the list reply for a row. *)
Definition row_line (t : Task) : string :=
  "• " ++ PyStr.str_of_int (id t) ++ ": " ++ title t
  ++ " (" ++ (if completed t then "✅" else "⏳") ++ ")".

(** The list reply for the rows shown. *)
Definition list_reply (status : string) (rows : list Task) : string :=
  match rows with
  | [] => "📭 No " ++ status ++ " tasks found."
  | _ :: _ =>
      "📋 Your " ++ status ++ " tasks:" ++ nl
      ++ PyStr.join nl (map row_line rows)
  end.

(** A sample table of two users. *)
Definition shared_world : world :=
  {| tasks :=
       [ {| id := 1; user_id := "u1"; title := "buy milk";
            description := None; completed := false;
            created_at := 0; updated_at := 0 |};
         {| id := 2; user_id := "u2"; title := "call bob";
            description := None; completed := true;
            created_at := 0; updated_at := 0 |};
         {| id := 5; user_id := "u1"; title := "pay rent";
            description := Some "monthly"; completed := true;
            created_at := 0; updated_at := 0 |} ];
     clock := fun n => Z.of_nat n |}.

(** The eleven trigger words of the chain. *)
Definition triggers : list string :=
  ["add"; "create"; "list"; "show"; "complete"; "done"; "finish";
   "delete"; "remove"; "update"; "change"].

(** The reply of the add branch to a message with no title in it. *)
Definition no_title : string :=
  "❌ Could not extract task title. Please specify what task to add.".

(** The text does not start with whitespace. *)
Definition head_clean (s : string) : Prop :=
  match s with
  | "" => True
  | String y _ => PyStr.isspace y = false
  end.

(* ================================================================== *)
(** * Properties *)

(** ** Strings *)

Section StringFacts.

Lemma app_nil_r (s : string) : s ++ "" = s.
Proof. induction s as [|c s IH]; simpl; [reflexivity | now rewrite IH]. Qed.

Lemma app_assoc (a b c : string) : (a ++ b) ++ c = a ++ b ++ c.
Proof. induction a as [|x a IH]; simpl; [reflexivity | now rewrite IH]. Qed.

Lemma app_length (a b : string) :
  String.length (a ++ b) = (String.length a + String.length b)%nat.
Proof. induction a as [|x a IH]; simpl; [reflexivity | now rewrite IH]. Qed.

Lemma lower_app (a b : string) :
  PyStr.lower (a ++ b) = PyStr.lower a ++ PyStr.lower b.
Proof. induction a as [|x a IH]; simpl; [reflexivity | now rewrite IH]. Qed.

End StringFacts.

Lemma startswith_spec (p s : string) :
  PyStr.startswith p s = true <-> exists suf, s = p ++ suf.
Proof.
  revert s; induction p as [|a p IH]; intros s; simpl.
  - split; [intros _; now exists s | reflexivity].
  - destruct s as [|b s].
    + split; [discriminate | intros [suf H]; discriminate].
    + rewrite andb_true_iff, Ascii.eqb_eq, IH. split.
      * intros [-> [suf ->]]. now exists suf.
      * intros [suf H]. injection H as -> ->. split; [reflexivity | now exists suf].
Qed.

Lemma contains_spec (kw s : string) :
  PyStr.contains kw s = true <-> Contains kw s.
Proof.
  induction s as [|c s IH].
  - simpl. rewrite orb_false_r, startswith_spec. split.
    + intros [suf H]. now exists "", suf.
    + intros [[|x pre] [suf H]]; [now exists suf | discriminate].
  - cbn [PyStr.contains]. rewrite orb_true_iff, startswith_spec, IH. split.
    + intros [[suf H] | [pre [suf H]]].
      * now exists "", suf.
      * exists (String c pre), suf. simpl. now rewrite H.
    + intros [[|x pre] [suf H]].
      * left. now exists suf.
      * right. simpl in H. injection H as -> ->. now exists pre, suf.
Qed.

Lemma contains_false (kw s : string) :
  PyStr.contains kw s = false <-> ~ Contains kw s.
Proof.
  rewrite <- contains_spec. destruct (PyStr.contains kw s); split;
    congruence.
Qed.

Lemma Contains_lower (kw s : string) :
  Contains kw s -> Contains (PyStr.lower kw) (PyStr.lower s).
Proof.
  intros [pre [suf ->]]. exists (PyStr.lower pre), (PyStr.lower suf).
  now rewrite !lower_app.
Qed.

(** ** Classification *)

Lemma either_spec (a b m : string) :
  PyStr.contains a m || PyStr.contains b m = true
  <-> Contains a m \/ Contains b m.
Proof. now rewrite orb_true_iff, !contains_spec. Qed.

Lemma either_false (a b m : string) :
  PyStr.contains a m || PyStr.contains b m = false
  <-> ~ (Contains a m \/ Contains b m).
Proof.
  rewrite <- either_spec.
  destruct (PyStr.contains a m || PyStr.contains b m); split; congruence.
Qed.

Lemma any3_spec (a b c m : string) :
  PyStr.contains a m || PyStr.contains b m || PyStr.contains c m = true
  <-> Contains a m \/ Contains b m \/ Contains c m.
Proof. rewrite !orb_true_iff, !contains_spec. tauto. Qed.

Lemma any3_false (a b c m : string) :
  PyStr.contains a m || PyStr.contains b m || PyStr.contains c m = false
  <-> ~ (Contains a m \/ Contains b m \/ Contains c m).
Proof.
  rewrite <- any3_spec.
  destruct (PyStr.contains a m || PyStr.contains b m || PyStr.contains c m);
    split; congruence.
Qed.

Lemma classify_first_rule (m : string) : first_rule m (classify m).
Proof.
  unfold classify.
  destruct (PyStr.contains "add" m || PyStr.contains "create" m) eqn:Ha.
  { apply rule_add. now apply either_spec. }
  apply either_false in Ha.
  destruct (PyStr.contains "list" m || PyStr.contains "show" m) eqn:Hl.
  { apply rule_list; [assumption | now apply either_spec]. }
  apply either_false in Hl.
  destruct (PyStr.contains "complete" m || PyStr.contains "done" m
            || PyStr.contains "finish" m) eqn:Hc.
  { apply rule_complete; try assumption. now apply any3_spec. }
  apply any3_false in Hc.
  destruct (PyStr.contains "delete" m || PyStr.contains "remove" m) eqn:Hd.
  { apply rule_delete; try assumption. now apply either_spec. }
  apply either_false in Hd.
  destruct (PyStr.contains "update" m || PyStr.contains "change" m) eqn:Hu.
  { apply rule_update; try assumption. now apply either_spec. }
  apply either_false in Hu.
  now apply rule_unknown.
Qed.

Lemma first_rule_functional (m : string) (i j : intent) :
  first_rule m i -> first_rule m j -> i = j.
Proof.
  intros Hi Hj; destruct Hi; destruct Hj; try reflexivity; tauto.
Qed.

(** C1.  The chain of [chat_with_bot] is first-match-wins in the order
    add/create, list/show, complete/done/finish, delete/remove,
    update/change, unknown: the intent it gives a lowercased message is the
    one of the first rule whose trigger words occur in it, and the request is
    answered by that intent's branch.  In particular a message that contains
    both "add" and "list" takes the add branch. *)
Theorem C1_classification_first_match :
  (forall m i, classify m = i <-> first_rule m i)
  /\ (forall uid request,
        chat_body uid request =
        (response <- branch (classify (PyStr.lower (ChatRequest.message request)))
                       uid request ;;
         ret (reply request response)))
  /\ (forall uid request,
        Contains "add" (ChatRequest.message request) ->
        Contains "list" (ChatRequest.message request) ->
        classify (PyStr.lower (ChatRequest.message request)) = IAdd
        /\ chat_body uid request =
           (response <- add_branch uid request
                          (PyStr.lower (ChatRequest.message request)) ;;
            ret (reply request response))).
Proof.
  split; [| split].
  - intros m i. split.
    + intros <-. apply classify_first_rule.
    + intros H. eapply first_rule_functional; [apply classify_first_rule | exact H].
  - intros uid request. unfold chat_body, branch.
    now destruct (classify _).
  - intros uid request Ha _.
    assert (Hc : classify (PyStr.lower (ChatRequest.message request)) = IAdd).
    { eapply first_rule_functional; [apply classify_first_rule |].
      apply rule_add. left. apply (Contains_lower "add"), Ha. }
    split; [exact Hc |]. unfold chat_body. now rewrite Hc.
Qed.

Lemma C1_witness :
  Contains "add" "Add, add and then list"
  /\ Contains "list" "Add, add and then list"
  /\ classify (PyStr.lower "Add, add and then list") = IAdd.
Proof.
  assert (Ha : Contains "add" "Add, add and then list")
    by (apply contains_spec; reflexivity).
  assert (Hl : Contains "list" "Add, add and then list")
    by (apply contains_spec; reflexivity).
  split; [exact Ha | split; [exact Hl |]].
  exact (proj1 (proj2 (proj2 C1_classification_first_match) "u1"
                  (ChatRequest.mk None "Add, add and then list") Ha Hl)).
Defined.

(** ** The tools and the table *)

(** [session.get] finds no row that [uid] owns: every row under the key
    [tid], if there is one, belongs to someone else. *)
Lemma load_owned_not_found (w : world) (uid : string) (tid : Z) :
  (forall t, In t (tasks w) -> id t = tid -> user_id t <> uid) ->
  load_owned uid tid w = (Raise not_found, w).
Proof.
  intros H. unfold load_owned, bind, Session.get.
  destruct (find (fun t => (id t =? tid)%Z) (tasks w)) as [t|] eqn:Hf.
  - apply find_some in Hf. destruct Hf as [Hin Hid].
    apply Z.eqb_eq in Hid. specialize (H t Hin Hid).
    apply String.eqb_neq in H. now rewrite H.
  - reflexivity.
Qed.

Lemma load_owned_found (w : world) (uid : string) (tid : Z) (t : Task) :
  find (fun r => (id r =? tid)%Z) (tasks w) = Some t ->
  user_id t = uid ->
  load_owned uid tid w = (Ok t, w).
Proof.
  intros Hf Hu. unfold load_owned, bind, Session.get. rewrite Hf.
  apply String.eqb_eq in Hu. now rewrite Hu.
Qed.



Lemma titled_app (ttl : string) (l1 l2 : list dict) :
  titled ttl (l1 ++ l2)%list = (titled ttl l1 ++ titled ttl l2)%list.
Proof. apply filter_app. Qed.

Lemma titled_none (ttl uid : string) (rows : list Task) :
  (forall t, In t rows -> user_id t = uid -> title t <> ttl) ->
  titled ttl
    (map task_view (filter (fun t => String.eqb (user_id t) uid) rows)) = [].
Proof.
  induction rows as [|r rows IH]; intros H; [reflexivity |].
  simpl. destruct (String.eqb (user_id r) uid) eqn:Hu.
  - simpl. apply String.eqb_eq in Hu.
    assert (Hn : title r <> ttl) by (apply H; [now left | exact Hu]).
    apply String.eqb_neq in Hn. rewrite Hn.
    apply IH. intros t Ht. apply H. now right.
  - apply IH. intros t Ht. apply H. now right.
Qed.

(** C4.  Add then list: after [add_task] for an owner and a non-empty title
    no task of that owner carried, the listing of the owner's tasks with
    status "all" has exactly one entry with that title, and this entry is
    not completed. *)
Theorem C4_add_then_list (w : world) (uid ttl descr : string) :
  ttl <> "" ->
  (forall t, In t (tasks w) -> user_id t = uid -> title t <> ttl) ->
  exists d w1 l,
    add_task_tool uid ttl descr w = (Ok d, w1)
    /\ Dict.lookup "title" d = Some (VStr ttl)
    /\ list_tasks_tool uid "all" w1 = (Ok l, w1)
    /\ exists e,
         titled ttl l = [e]
         /\ Dict.lookup "title" e = Some (VStr ttl)
         /\ Dict.lookup "completed" e = Some (VBool false)
         /\ Dict.lookup "id" e = Dict.lookup "task_id" d.
Proof.
  intros _ Hfresh.
  unfold add_task_tool, utcnow, Session.insert, bind, ret. cbn.
  eexists _, _, _. split; [reflexivity |]. split; [reflexivity |].
  unfold list_tasks_tool, Session.select_by_user, bind, ret. cbn.
  split; [reflexivity |].
  rewrite filter_app, map_app, titled_app, (titled_none _ _ _ Hfresh).
  cbn. rewrite String.eqb_refl. cbn. rewrite String.eqb_refl.
  eexists. split; [reflexivity |]. cbn. repeat split.
Qed.

Lemma C4_witness :
  exists d w1 l,
    add_task_tool "u1" "feed cat" "" demo_world = (Ok d, w1)
    /\ Dict.lookup "title" d = Some (VStr "feed cat")
    /\ list_tasks_tool "u1" "all" w1 = (Ok l, w1)
    /\ exists e,
         titled "feed cat" l = [e]
         /\ Dict.lookup "title" e = Some (VStr "feed cat")
         /\ Dict.lookup "completed" e = Some (VBool false)
         /\ Dict.lookup "id" e = Dict.lookup "task_id" d.
Proof.
  apply (C4_add_then_list demo_world "u1" "feed cat" "").
  - discriminate.
  - intros t [<- | []] _. discriminate.
Defined.

Lemma listedb_spec (uid status : string) (t : Task) :
  listedb uid status t = true <-> Listed uid status t.
Proof.
  unfold listedb, Listed. rewrite andb_true_iff, String.eqb_eq.
  destruct (String.eqb_spec status "pending") as [-> | Hp].
  - rewrite negb_true_iff. split.
    + intros [Hu Hc]. repeat split; [assumption | | discriminate].
      intros _; exact Hc.
    + intros [Hu [Hc _]]. split; [assumption | now apply Hc].
  - destruct (String.eqb_spec status "completed") as [-> | Hc].
    + split.
      * intros [Hu Hd]. repeat split; [assumption | discriminate |].
        intros _; exact Hd.
      * intros [Hu [_ Hd]]. split; [assumption | now apply Hd].
    + split.
      * intros [Hu _]. repeat split; [assumption | |]; intros; contradiction.
      * intros [Hu _]. now split.
Qed.

Lemma filter_filter {A} (f g : A -> bool) (l : list A) :
  filter g (filter f l) = filter (fun x => f x && g x) l.
Proof.
  induction l as [|x l IH]; [reflexivity |]. simpl.
  destruct (f x); simpl; [destruct (g x) |]; now rewrite IH.
Qed.

Lemma filter_true {A} (l : list A) : filter (fun _ => true) l = l.
Proof. induction l as [|x l IH]; simpl; [reflexivity | now rewrite IH]. Qed.

Lemma list_tasks_tool_eq (w : world) (uid status : string) :
  list_tasks_tool uid status w
  = (Ok (map task_view (filter (listedb uid status) (tasks w))), w).
Proof.
  unfold list_tasks_tool, Session.select_by_user, bind, ret, listedb.
  destruct (String.eqb status "pending").
  - now rewrite filter_filter.
  - destruct (String.eqb status "completed").
    + now rewrite filter_filter.
    + do 3 f_equal. apply filter_ext. intros t. now rewrite andb_true_r.
Qed.

(** C5.  [list_tasks] never raises and leaves the world alone.  Its result
    shows, in table order, exactly the rows of the owner that pass the
    status filter: the uncompleted ones for "pending", the completed ones for
    "completed", all of them for "all"; it is the empty list when no row
    passes. *)
Theorem C5_list_tasks_exact (w : world) (uid status : string) :
  exists keep : Task -> bool,
    (forall t, keep t = true <-> Listed uid status t)
    /\ list_tasks_tool uid status w
       = (Ok (map task_view (filter keep (tasks w))), w)
    /\ ((forall t, In t (tasks w) -> ~ Listed uid status t) ->
        list_tasks_tool uid status w = (Ok [], w))
    /\ call_list_tasks
         {| kw_user_id := Some uid; kw_task_id := None; kw_title := None;
            kw_description := None; kw_status := None |} w
       = (Ok (RList (map task_view
                       (filter (fun t => String.eqb (user_id t) uid)
                               (tasks w)))), w).
Proof.
  exists (listedb uid status). split; [apply listedb_spec |].
  split; [apply list_tasks_tool_eq |]. split.
  - intros Hnone. rewrite list_tasks_tool_eq. do 2 f_equal.
    replace (filter (listedb uid status) (tasks w)) with (@nil Task);
      [reflexivity |].
    symmetry. induction (tasks w) as [|r rows IH]; [reflexivity |].
    simpl. destruct (listedb uid status r) eqn:Hk.
    + exfalso. apply (Hnone r); [now left | now apply listedb_spec].
    + apply IH. intros t Ht. apply Hnone. now right.
  - reflexivity.
Qed.

Lemma C5_witness :
  list_tasks_tool "u1" "completed" demo_world = (Ok [], demo_world).
Proof.
  destruct (C5_list_tasks_exact demo_world "u1" "completed")
    as [keep [_ [_ [Hempty _]]]].
  apply Hempty. intros t [<- | []] [_ [_ Hc]]. specialize (Hc eq_refl).
  discriminate.
Defined.

(** ** The registry *)

Lemma dispatch_unknown (tools : list Tool) (tool_name : string)
      (kw : kwargs) (w : world) :
  ~ In tool_name (map name tools) ->
  dispatch tools tool_name kw w
  = (Raise (ValueError ("Tool '" ++ tool_name ++ "' not found")), w).
Proof.
  induction tools as [|tool rest IH]; intros Hn; [reflexivity |].
  simpl in *. destruct (String.eqb_spec (name tool) tool_name) as [E | _].
  - exfalso. apply Hn. now left.
  - apply IH. intros Hin. apply Hn. now right.
Qed.

Lemma dispatch_known (tools : list Tool) (tool : Tool) (kw : kwargs) :
  NoDup (map name tools) ->
  In tool tools ->
  dispatch tools (name tool) kw = func tool kw.
Proof.
  induction tools as [|t rest IH]; intros Hnd Hin; [destruct Hin |].
  simpl in *. inversion Hnd as [|x l Hx Hnd']; subst.
  destruct Hin as [-> | Hin].
  - now rewrite String.eqb_refl.
  - destruct (String.eqb_spec (name t) (name tool)) as [E | _].
    + exfalso. apply Hx. rewrite E. now apply in_map.
    + now apply IH.
Qed.

Lemma TOOLS_names : map name TOOLS = registered.
Proof. reflexivity. Qed.

Lemma registered_NoDup : NoDup registered.
Proof.
  unfold registered.
  repeat (constructor; [simpl; intuition discriminate |]). constructor.
Qed.

(** C6.  Registry dispatch.  The registry holds the five tools under their
    names.  For a name that is none of the five, [handle_tool_call] raises
    the tool-not-found error and leaves the world alone.  For a registered
    tool it is the call of the tool's function on the same arguments: what
    the function returns or raises, and the world it leaves, come back as
    they are. *)
Theorem C6_registry_dispatch :
  map name TOOLS = registered
  /\ (forall tool_name kw w,
        ~ In tool_name registered ->
        handle_tool_call tool_name kw w
        = (Raise (ValueError ("Tool '" ++ tool_name ++ "' not found")), w))
  /\ (forall tool kw w,
        In tool TOOLS ->
        handle_tool_call (name tool) kw w = func tool kw w)
  /\ (forall tool kw w e w',
        In tool TOOLS ->
        func tool kw w = (Raise e, w') ->
        handle_tool_call (name tool) kw w = (Raise e, w')).
Proof.
  split; [reflexivity |]. split; [| split].
  - intros tool_name kw w Hn. apply dispatch_unknown.
    now rewrite TOOLS_names.
  - intros tool kw w Hin. unfold handle_tool_call.
    rewrite dispatch_known; [reflexivity | | exact Hin].
    rewrite TOOLS_names. apply registered_NoDup.
  - intros tool kw w e w' Hin Hf. unfold handle_tool_call.
    rewrite dispatch_known; [exact Hf | | exact Hin].
    rewrite TOOLS_names. apply registered_NoDup.
Qed.

Lemma C6_witness :
  handle_tool_call "rename_task" no_kwargs demo_world
  = (Raise (ValueError "Tool 'rename_task' not found"), demo_world).
Proof.
  apply (proj1 (proj2 C6_registry_dispatch) "rename_task" no_kwargs demo_world).
  unfold registered. simpl. intuition discriminate.
Defined.

(** ** Update *)

(** C9.  [update_task] on a row the caller owns succeeds, and the row it
    stores differs from the loaded one in this only: the title, when the
    title argument is a non-empty string; the description, likewise; and the
    update time, which is the clock's reading.  An argument left out, [None]
    or empty leaves its field as it was; key, owner, completion flag and
    creation time are kept, and so is every other row. *)
Theorem C9_update_frame (w : world) (uid : string) (tid : Z) (t : Task)
        (ttl descr : option string) :
  find (fun r => (id r =? tid)%Z) (tasks w) = Some t ->
  user_id t = uid ->
  exists d w' t',
    update_task_tool uid tid ttl descr w = (Ok d, w')
    /\ tasks w' = map (fun r => if (id r =? tid)%Z then t' else r) (tasks w)
    /\ find (fun r => (id r =? tid)%Z) (tasks w') = Some t'
    /\ title t' = overwritten ttl (title t)
    /\ description t' = overwritten_opt descr (description t)
    /\ (ttl = None \/ ttl = Some "" -> title t' = title t)
    /\ (descr = None \/ descr = Some "" -> description t' = description t)
    /\ updated_at t' = clock w 0%nat
    /\ id t' = id t /\ user_id t' = user_id t
    /\ completed t' = completed t /\ created_at t' = created_at t
    /\ Dict.lookup "title" d = Some (VStr (title t')).
Proof.
  intros Hf Hu.
  pose proof (find_some _ _ Hf) as [Hin Hid]. apply Z.eqb_eq in Hid.
  unfold update_task_tool, bind.
  rewrite (load_owned_found w uid tid t Hf Hu).
  unfold utcnow, Session.update, ret. cbn. rewrite Hid.
  eexists _, _, _. split; [reflexivity |]. cbn.
  split; [reflexivity |]. split.
  { clear Hin. revert Hf. induction (tasks w) as [|r rows IH]; [discriminate |].
    simpl. destruct (id r =? tid)%Z eqn:E.
    - intros _. cbn. now rewrite Z.eqb_refl.
    - intros H. rewrite E. now apply IH. }
  split; [destruct ttl as [[|c s]|]; reflexivity |].
  split; [destruct descr as [[|c s]|]; reflexivity |].
  split; [intros [-> | ->]; reflexivity |].
  split; [intros [-> | ->]; reflexivity |].
  repeat split; reflexivity.
Qed.

Lemma C9_witness :
  exists d w' t',
    update_task_tool "u1" 1 (Some "") (Some "two litres") demo_world = (Ok d, w')
    /\ find (fun r => (id r =? 1)%Z) (tasks w') = Some t'
    /\ title t' = "buy milk"
    /\ description t' = Some "two litres".
Proof.
  destruct (C9_update_frame demo_world "u1" 1 demo_task (Some "")
              (Some "two litres") eq_refl eq_refl)
    as [d [w' [t' [H1 [_ [H3 [H4 [H5 _]]]]]]]].
  exists d, w', t'. repeat split; assumption.
Defined.

(** ** The matcher *)

Section CharFacts.

Lemma all_chars_app p (a b : string) :
  all_chars p (a ++ b) = all_chars p a && all_chars p b.
Proof.
  induction a as [|x a IH]; simpl; [reflexivity |].
  now rewrite IH, andb_assoc.
Qed.

Lemma any_char_app p (a b : string) :
  any_char p (a ++ b) = any_char p a || any_char p b.
Proof.
  induction a as [|x a IH]; simpl; [reflexivity |].
  now rewrite IH, orb_assoc.
Qed.

Lemma all_chars_impl (p q : ascii -> bool) (s : string) :
  (forall c, p c = true -> q c = true) ->
  all_chars p s = true -> all_chars q s = true.
Proof.
  intros Hpq. induction s as [|c s IH]; simpl; [reflexivity |].
  rewrite !andb_true_iff. intros [Hc Hs]. split; [now apply Hpq | now apply IH].
Qed.

Lemma all_none_any (p q : ascii -> bool) (s : string) :
  (forall c, p c = true -> q c = false) ->
  all_chars p s = true -> any_char q s = false.
Proof.
  intros Hpq. induction s as [|c s IH]; simpl; [reflexivity |].
  rewrite andb_true_iff, orb_false_iff. intros [Hc Hs].
  split; [now apply Hpq | now apply IH].
Qed.

Lemma take_drop_class cl (s : string) :
  take_class cl s ++ drop_class cl s = s.
Proof.
  induction s as [|c s IH]; simpl; [reflexivity |].
  destruct (Re.cmatch cl c); simpl; [now rewrite IH | reflexivity].
Qed.

Lemma take_class_all cl (s : string) :
  all_chars (Re.cmatch cl) (take_class cl s) = true.
Proof.
  induction s as [|c s IH]; simpl; [reflexivity |].
  destruct (Re.cmatch cl c) eqn:E; simpl; [now rewrite E | reflexivity].
Qed.

Lemma substring_prefix (u s : string) :
  substring 0 (String.length u) (u ++ s) = u.
Proof.
  induction u as [|c u IH]; simpl.
  - now destruct s.
  - now rewrite IH.
Qed.

Lemma consumed_app (u s : string) : Re.consumed (u ++ s) s = u.
Proof.
  unfold Re.consumed. rewrite app_length.
  replace (String.length u + String.length s - String.length s)%nat
    with (String.length u) by lia.
  apply substring_prefix.
Qed.

End CharFacts.

Section MatcherFacts.
Context {A : Type}.

Lemma plus_loop_sound cl (s : string) (k : string -> option A) (a : A) :
  Re.plus_loop cl s k = Some a ->
  exists u s', s = u ++ s' /\ u <> ""
               /\ all_chars (Re.cmatch cl) u = true /\ k s' = Some a.
Proof.
  induction s as [|x s IH]; simpl; [discriminate |].
  destruct (Re.cmatch cl x) eqn:Hx; [| discriminate].
  destruct (Re.plus_loop cl s k) as [b|] eqn:Hl.
  - intros [= ->]. destruct (IH eq_refl) as [u [s' [-> [_ [Hu Hk]]]]].
    exists (String x u), s'. simpl. rewrite Hx, Hu.
    repeat split; [discriminate | assumption].
  - intros Hk. exists (String x ""), s. simpl. rewrite Hx.
    repeat split; [discriminate | assumption].
Qed.

Lemma plus_loop_complete cl (u s' : string) (k : string -> option A) :
  u <> "" -> all_chars (Re.cmatch cl) u = true -> k s' <> None ->
  Re.plus_loop cl (u ++ s') k <> None.
Proof.
  induction u as [|x u IH]; [congruence |].
  intros _. simpl. rewrite andb_true_iff. intros [Hx Hu] Hk. rewrite Hx.
  destruct u as [|y u].
  - simpl. destruct (Re.plus_loop cl s' k); [discriminate | exact Hk].
  - assert (H : Re.plus_loop cl (String y u ++ s') k <> None)
      by (apply IH; [discriminate | assumption | assumption]).
    destruct (Re.plus_loop cl (String y u ++ s') k); [discriminate | congruence].
Qed.

(** With a continuation that cannot fail, [c+] takes the longest run. *)
Lemma plus_loop_greedy cl (s : string) (f : string -> A) :
  Re.plus_loop cl s (fun s' => Some (f s'))
  = match s with
    | "" => None
    | String x s' =>
        if Re.cmatch cl x then Some (f (drop_class cl s')) else None
    end.
Proof.
  destruct s as [|x s]; [reflexivity |]. revert x.
  induction s as [|y s IH]; intros x; simpl.
  - now destruct (Re.cmatch cl x).
  - destruct (Re.cmatch cl x); [| reflexivity].
    specialize (IH y). simpl in IH. rewrite IH.
    now destruct (Re.cmatch cl y).
Qed.

Lemma rmatch_sound (r : Re.regex) :
  forall (s : string) g (k : string -> option string -> option A) (a : A),
    Re.rmatch r s g k = Some a ->
    exists u s' g', s = u ++ s' /\ Matches r u g g' /\ k s' g' = Some a.
Proof.
  induction r as [| cl | cl | r1 IH1 r2 IH2 | r1 IH1 r2 IH2 | r1 IH1 | r1 IH1];
    intros s g k a H; simpl in H.
  - exists "", s, g. repeat split; [constructor | assumption].
  - destruct s as [|x s]; [discriminate |].
    destruct (Re.cmatch cl x) eqn:Hx; [| discriminate].
    exists (String x ""), s, g. repeat split; [now constructor | assumption].
  - apply plus_loop_sound in H. destruct H as [u [s' [-> [Hne [Hu Hk]]]]].
    exists u, s', g. repeat split; [now constructor | assumption].
  - apply IH1 in H. destruct H as [u1 [s1 [g1 [-> [M1 H]]]]].
    apply IH2 in H. destruct H as [u2 [s2 [g2 [-> [M2 H]]]]].
    exists (u1 ++ u2), s2, g2. rewrite app_assoc.
    repeat split; [econstructor; eassumption | assumption].
  - destruct (Re.rmatch r1 s g k) as [b|] eqn:H1.
    + injection H as ->. apply IH1 in H1.
      destruct H1 as [u [s' [g' [-> [M H]]]]].
      exists u, s', g'. repeat split; [now apply M_alt_l | assumption].
    + apply IH2 in H. destruct H as [u [s' [g' [-> [M H]]]]].
      exists u, s', g'. repeat split; [now apply M_alt_r | assumption].
  - destruct (Re.rmatch r1 s g k) as [b|] eqn:H1.
    + injection H as ->. apply IH1 in H1.
      destruct H1 as [u [s' [g' [-> [M H]]]]].
      exists u, s', g'. repeat split; [now apply M_opt_some | assumption].
    + exists "", s, g. repeat split; [apply M_opt_none | assumption].
  - apply IH1 in H. destruct H as [u [s' [g' [-> [M H]]]]].
    rewrite consumed_app in H.
    exists u, s', (Some u). repeat split; [econstructor; eassumption | assumption].
Qed.

Lemma rmatch_complete (r : Re.regex) (u : string) g0 g0' :
  Matches r u g0 g0' ->
  forall (s' : string) g (k : string -> option string -> option A),
    (forall g2, k s' g2 <> None) ->
    Re.rmatch r (u ++ s') g k <> None.
Proof.
  induction 1 as [ g0 | cl x g0 Hx | cl u g0 Hne Hu
                 | r1 r2 u1 u2 g0 g1 g2 M1 IH1 M2 IH2
                 | r1 r2 u g0 g0' M IH | r1 r2 u g0 g0' M IH
                 | r u g0 g0' M IH | r g0 | r u g0 g0' M IH ];
    intros s' g k Hk; simpl.
  - apply Hk.
  - rewrite Hx. apply Hk.
  - apply plus_loop_complete; [assumption | assumption | apply Hk].
  - rewrite app_assoc. apply IH1. intros g3. now apply IH2.
  - specialize (IH s' g k Hk).
    destruct (Re.rmatch r1 (u ++ s') g k); [discriminate | congruence].
  - specialize (IH s' g k Hk).
    destruct (Re.rmatch r1 (u ++ s') g k); [discriminate | assumption].
  - specialize (IH s' g k Hk).
    destruct (Re.rmatch r (u ++ s') g k); [discriminate | congruence].
  - destruct (Re.rmatch r s' g k); [discriminate | apply Hk].
  - apply IH. intros g3. apply Hk.
Qed.

End MatcherFacts.

Lemma Matches_alphabet (r : Re.regex) (u : string) g g' :
  Matches r u g g' -> all_chars (alphabet r) u = true.
Proof.
  induction 1; simpl; try reflexivity.
  - now rewrite H.
  - assumption.
  - rewrite all_chars_app, andb_true_iff. split.
    + eapply all_chars_impl; [| eassumption]. intros c Hc. now rewrite Hc.
    + eapply all_chars_impl; [| eassumption]. intros c Hc. rewrite Hc.
      apply orb_true_r.
  - eapply all_chars_impl; [| eassumption]. intros c Hc. now rewrite Hc.
  - eapply all_chars_impl; [| eassumption]. intros c Hc. rewrite Hc.
    apply orb_true_r.
  - assumption.
  - assumption.
Qed.

Lemma Matches_no_group (r : Re.regex) (u : string) g g' :
  Matches r u g g' -> has_group r = false -> g' = g.
Proof.
  induction 1; simpl; intros Hg; try reflexivity;
    try (apply orb_false_iff in Hg; destruct Hg as [Hg1 Hg2]).
  - rewrite IHMatches2, IHMatches1; auto.
  - auto.
  - auto.
  - auto.
  - discriminate.
Qed.

Lemma Matches_regroup (r : Re.regex) (u : string) g g' :
  Matches r u g g' -> forall g2, exists g2', Matches r u g2 g2'.
Proof.
  induction 1; intros g3.
  - eexists; constructor.
  - eexists; now constructor.
  - eexists; now constructor.
  - destruct (IHMatches1 g3) as [g4 M1]. destruct (IHMatches2 g4) as [g5 M2].
    eexists; econstructor; eassumption.
  - destruct (IHMatches g3) as [g4 M]. eexists; apply M_alt_l; eassumption.
  - destruct (IHMatches g3) as [g4 M]. eexists; apply M_alt_r; eassumption.
  - destruct (IHMatches g3) as [g4 M]. eexists; apply M_opt_some; eassumption.
  - eexists; apply M_opt_none.
  - destruct (IHMatches g3) as [g4 M]. eexists; eapply M_group; eassumption.
Qed.

(** *** Search *)

Lemma search_none (r : Re.regex) (s : string) :
  Re.search r s = None ->
  forall pre sp, s = pre ++ sp -> Re.match_at r sp = None.
Proof.
  induction s as [|c s IH]; simpl.
  - destruct (Re.match_at r "") eqn:E; [discriminate |].
    intros _ [|x pre] sp Hs; [simpl in Hs; now subst | discriminate].
  - destruct (Re.match_at r (String c s)) eqn:E; [discriminate |].
    intros Hn [|x pre] sp Hs.
    + simpl in Hs. now subst.
    + simpl in Hs. injection Hs as -> ->. now apply (IH Hn pre).
Qed.

Lemma search_some (r : Re.regex) (s : string) (m : Re.Match) :
  Re.search r s = Some m ->
  exists pre sp, s = pre ++ sp /\ Re.match_at r sp = Some m.
Proof.
  induction s as [|c s IH]; simpl.
  - destruct (Re.match_at r "") eqn:E; [| discriminate].
    intros [= ->]. now exists "", "".
  - destruct (Re.match_at r (String c s)) eqn:E.
    + intros [= ->]. now exists "", (String c s).
    + intros H. destruct (IH H) as [pre [sp [-> Hm]]].
      now exists (String c pre), sp.
Qed.

(** ** Task-id extraction *)

Lemma take_class_run cl (ds rest : string) :
  all_chars (Re.cmatch cl) ds = true ->
  match rest with "" => True | String c _ => Re.cmatch cl c = false end ->
  take_class cl (ds ++ rest) = ds.
Proof.
  intros Hds Hr. induction ds as [|c ds IH]; simpl in *.
  - destruct rest as [|c rest]; [reflexivity |]. simpl. now rewrite Hr.
  - apply andb_true_iff in Hds. destruct Hds as [Hc Hds].
    rewrite Hc. now rewrite IH.
Qed.

Lemma drop_class_head cl (s : string) :
  match drop_class cl s with
  | "" => True
  | String c _ => Re.cmatch cl c = false
  end.
Proof.
  induction s as [|c s IH]; simpl; [exact I |].
  destruct (Re.cmatch cl c) eqn:E; [exact IH | exact E].
Qed.

Lemma first_digits_run (m ds : string) :
  FirstDigitRun m ds -> first_digits m = Some ds.
Proof.
  intros [pre [rest [-> [_ [Hpre [Hne [Hds Hrest]]]]]]].
  induction pre as [|c pre IH]; simpl in *.
  - destruct ds as [|d ds]; [congruence |]. simpl in *.
    apply andb_true_iff in Hds. destruct Hds as [Hd Hds]. rewrite Hd.
    rewrite (take_class_run Re.CDigit ds rest Hds); [reflexivity |].
    destruct rest; [exact I | apply Hrest].
  - apply orb_false_iff in Hpre. destruct Hpre as [Hc Hpre].
    rewrite Hc. now apply IH.
Qed.

Lemma first_digits_digits (m ds : string) :
  first_digits m = Some ds -> ds <> "" /\ all_chars PyStr.isdigit ds = true.
Proof.
  induction m as [|c m IH]; simpl; [discriminate |].
  destruct (PyStr.isdigit c) eqn:Hc; [| exact IH].
  intros [= <-]. split; [discriminate |]. simpl.
  now rewrite Hc, (take_class_all Re.CDigit).
Qed.

Lemma first_digits_none (m : string) :
  first_digits m = None <-> any_char PyStr.isdigit m = false.
Proof.
  induction m as [|c m IH]; simpl; [tauto |].
  destruct (PyStr.isdigit c); simpl; [split; discriminate | exact IH].
Qed.

Lemma first_digits_skip (u s : string) :
  any_char PyStr.isdigit u = false -> first_digits (u ++ s) = first_digits s.
Proof.
  induction u as [|c u IH]; simpl; [reflexivity |].
  rewrite orb_false_iff. intros [Hc Hu]. rewrite Hc. now apply IH.
Qed.

(** A group over [c+] that ends the pattern captures the longest run. *)
Lemma group_plus_last cl (s : string) g :
  Re.rmatch (Re.Seq (Re.Group (Re.Plus cl)) Re.Eps) s g
    (fun _ g' => Some {| Re.group1 := g' |})
  = match s with
    | "" => None
    | String x s' =>
        if Re.cmatch cl x
        then Some {| Re.group1 := Some (String x (take_class cl s')) |}
        else None
    end.
Proof.
  cbn [Re.rmatch].
  rewrite (plus_loop_greedy cl s
             (fun s' => {| Re.group1 := Some (Re.consumed s s') |})).
  destruct s as [|x s']; [reflexivity |].
  destruct (Re.cmatch cl x); [| reflexivity].
  do 3 f_equal.
  rewrite <- (take_drop_class cl s') at 1.
  change (String x (take_class cl s' ++ drop_class cl s'))
    with (String x (take_class cl s') ++ drop_class cl s').
  apply consumed_app.
Qed.

Lemma task_word_no_digit (c : ascii) :
  alphabet task_word c = true -> PyStr.isdigit c = false.
Proof.
  destruct c as [[] [] [] [] [] [] [] []]; vm_compute; congruence.
Qed.

Lemma match_task_number (s : string) :
  match Re.match_at Patterns.task_number s with
  | Some m => exists ds, first_digits s = Some ds /\ m = {| Re.group1 := Some ds |}
  | None => match s with
            | "" => True
            | String c _ => PyStr.isdigit c = false
            end
  end.
Proof.
  unfold Re.match_at, Patterns.task_number.
  change (Patterns.seq [Re.Opt (Patterns.seq [Re.lit "task"; Patterns.spaces]);
                        Re.Group (Re.Plus Re.CDigit)])
    with (Re.Seq (Re.Opt task_word)
                 (Re.Seq (Re.Group (Re.Plus Re.CDigit)) Re.Eps)).
  cbn [Re.rmatch].
  set (K := fun (s1 : string) (g1 : option string) =>
              Re.rmatch (Re.Seq (Re.Group (Re.Plus Re.CDigit)) Re.Eps) s1 g1
                (fun _ g' => Some {| Re.group1 := g' |})).
  change (match
             match Re.rmatch task_word s None K with
             | Some a => Some a
             | None => K s None
             end
           with
           | Some m => exists ds, first_digits s = Some ds
                                  /\ m = {| Re.group1 := Some ds |}
           | None => match s with
                     | "" => True
                     | String c _ => PyStr.isdigit c = false
                     end
           end).
  destruct (Re.rmatch task_word s None K) as [a|] eqn:Hw.
  - apply rmatch_sound in Hw. destruct Hw as [u [s1 [g1 [-> [Mu Hk]]]]].
    unfold K in Hk. rewrite group_plus_last in Hk.
    destruct s1 as [|x s1]; [discriminate |].
    change (Re.cmatch Re.CDigit x) with (PyStr.isdigit x) in Hk.
    destruct (PyStr.isdigit x) eqn:Hx; [| discriminate].
    injection Hk as <-. eexists. split; [| reflexivity].
    rewrite first_digits_skip.
    + simpl. now rewrite Hx.
    + apply Matches_alphabet in Mu.
      eapply all_none_any; [| exact Mu]. apply task_word_no_digit.
  - unfold K. rewrite group_plus_last. destruct s as [|x s]; [exact I |].
    change (Re.cmatch Re.CDigit x) with (PyStr.isdigit x).
    destruct (PyStr.isdigit x) eqn:Hx; [| reflexivity].
    eexists. split; [| reflexivity]. simpl. now rewrite Hx.
Qed.

Lemma search_task_number (s : string) :
  Re.search Patterns.task_number s
  = match first_digits s with
    | Some ds => Some {| Re.group1 := Some ds |}
    | None => None
    end.
Proof.
  induction s as [|c s IH].
  - cbn [Re.search]. pose proof (match_task_number "") as H.
    destruct (Re.match_at Patterns.task_number "") as [m|].
    + destruct H as [ds [H _]]. discriminate.
    + reflexivity.
  - cbn [Re.search]. pose proof (match_task_number (String c s)) as H.
    destruct (Re.match_at Patterns.task_number (String c s)) as [m|].
    + destruct H as [ds [-> ->]]. reflexivity.
    + rewrite IH. simpl. now rewrite H.
Qed.

Lemma extract_task_id_eq (m : string) :
  extract_task_id m
  = match first_digits m with
    | Some ds =>
        match py_int ds with
        | Ok n => Ok (Some n)
        | Raise e => Raise e
        end
    | None => Ok None
    end.
Proof.
  unfold extract_task_id. rewrite search_task_number.
  now destruct (first_digits m).
Qed.

Lemma int_acc_app (a b : string) (acc : Z) :
  PyStr.int_acc acc (a ++ b) = PyStr.int_acc (PyStr.int_acc acc a) b.
Proof.
  revert acc. induction a as [|c a IH]; intros acc; [reflexivity |].
  cbn [append PyStr.int_acc]. apply IH.
Qed.

Lemma digit_char_val (d : Z) :
  (0 <= d <= 9)%Z -> PyStr.digit_val (digit_char d) = d.
Proof.
  intros H.
  assert (E : (d = 0 \/ d = 1 \/ d = 2 \/ d = 3 \/ d = 4 \/ d = 5 \/ d = 6
               \/ d = 7 \/ d = 8 \/ d = 9)%Z) by lia.
  repeat (destruct E as [-> | E]; [reflexivity |]). now subst.
Qed.

Lemma py_int_short (ds : string) :
  (String.length ds <= 4300)%nat -> py_int ds = Ok (PyStr.int_of_digits ds).
Proof.
  intros H. unfold py_int, max_str_digits.
  apply Nat.leb_le in H. now rewrite H.
Qed.

Lemma py_int_long (ds : string) :
  (4300 < String.length ds)%nat ->
  py_int ds = Raise (ValueError (int_limit_message (String.length ds))).
Proof.
  intros H. unfold py_int, max_str_digits.
  apply Nat.leb_gt in H. now rewrite H.
Qed.

Lemma no_digit_none (m : string) :
  any_char PyStr.isdigit m = false -> extract_task_id m = Ok None.
Proof.
  intros H. apply first_digits_none in H.
  now rewrite extract_task_id_eq, H.
Qed.

(** C7 as the code has it.  For a message whose first run of digits has at
    most 4300 digits, [extract_task_id] returns the number the run writes in
    base ten, whether or not the word "task" comes before it: 42 for
    "complete task 42".  For a longer run [int] raises [ValueError].  On an
    ASCII message it returns not-found exactly when the message has no
    digit, as "complete it" has none.  The number a run writes is 0 for the
    empty run and ten times the number of the run without its last digit,
    plus that digit. *)
Theorem C7_extract_task_id :
  (forall m ds,
     FirstDigitRun m ds ->
     (String.length ds <= 4300)%nat ->
     extract_task_id m = Ok (Some (PyStr.int_of_digits ds)))
  /\ (forall m ds,
        FirstDigitRun m ds ->
        (4300 < String.length ds)%nat ->
        exists msg, extract_task_id m = Raise (ValueError msg))
  /\ (forall m,
        PyStr.isascii m = true ->
        (extract_task_id m = Ok None <-> any_char PyStr.isdigit m = false))
  /\ PyStr.int_of_digits "" = 0%Z
  /\ (forall ds d,
        all_chars PyStr.isdigit ds = true ->
        (0 <= d <= 9)%Z ->
        PyStr.int_of_digits (ds ++ String (digit_char d) "")
        = (10 * PyStr.int_of_digits ds + d)%Z)
  /\ extract_task_id "complete task 42" = Ok (Some 42%Z)
  /\ extract_task_id "Complete TASK 42 and 7" = Ok (Some 42%Z)
  /\ extract_task_id "complete it" = Ok None.
Proof.
  split; [| split; [| split; [| split; [| split]]]].
  - intros m ds H Hlen. apply first_digits_run in H.
    now rewrite extract_task_id_eq, H, py_int_short.
  - intros m ds H Hlen. apply first_digits_run in H.
    rewrite extract_task_id_eq, H, py_int_long by exact Hlen.
    eexists; reflexivity.
  - intros m _. split; [| apply no_digit_none].
    rewrite extract_task_id_eq, <- first_digits_none.
    destruct (first_digits m) as [ds|]; [| reflexivity].
    destruct (py_int ds); discriminate.
  - reflexivity.
  - intros ds d _ Hd. unfold PyStr.int_of_digits. rewrite int_acc_app.
    cbn [PyStr.int_acc]. now rewrite digit_char_val.
  - repeat split; reflexivity.
Qed.

Lemma C7_witness :
  FirstDigitRun "finish 007 then 9" "007"
  /\ extract_task_id "finish 007 then 9" = Ok (Some 7%Z).
Proof.
  assert (H : FirstDigitRun "finish 007 then 9" "007").
  { exists "finish ", " then 9". repeat split; discriminate. }
  split; [exact H |].
  apply (proj1 C7_extract_task_id "finish 007 then 9" "007" H).
  simpl. lia.
Defined.

(** C7 as the specification has it fails: a message of 4301 digits is its
    own first run of digits, and [extract_task_id] raises on it instead of
    returning its value. *)
Lemma C7_counterexample :
  ~ (forall m ds,
       FirstDigitRun m ds ->
       extract_task_id m = Ok (Some (PyStr.int_of_digits ds))).
Proof.
  intros H.
  specialize (H (copies 4301 "1") (copies 4301 "1")).
  assert (R : FirstDigitRun (copies 4301 "1") (copies 4301 "1")).
  { exists "", "". rewrite app_nil_r. split; [reflexivity |].
    split; [reflexivity |]. split; [reflexivity |].
    split; [discriminate |]. split; [vm_compute; reflexivity | exact I]. }
  specialize (H R). revert H. vm_compute. discriminate.
Qed.

(** ** Title extraction *)

Section StripFacts.

Lemma clean_end_app (u s : string) :
  clean_end (u ++ s) = true -> clean_end s = true.
Proof.
  induction u as [|c u IH]; [trivial |].
  simpl. destruct (u ++ s) as [|d t] eqn:E.
  - destruct u; [simpl in E; now subst | discriminate].
  - exact IH.
Qed.

Lemma clean_end_rstrip (s : string) : clean_end (PyStr.rstrip s) = true.
Proof.
  induction s as [|c s IH]; [reflexivity |].
  simpl. destruct (PyStr.rstrip s) as [|d r].
  - destruct (PyStr.isspace c) eqn:E; simpl; [reflexivity | now rewrite E].
  - exact IH.
Qed.

Lemma rstrip_head (s : string) (c : ascii) (r : string) :
  PyStr.rstrip s = String c r -> exists s', s = String c s'.
Proof.
  destruct s as [|d s]; simpl; [discriminate |].
  destruct (PyStr.rstrip s).
  - destruct (PyStr.isspace d); [discriminate |].
    intros [= -> _]. now exists s.
  - intros [= -> _]. now exists s.
Qed.

Lemma lstrip_head (s : string) (c : ascii) (r : string) :
  PyStr.lstrip s = String c r -> PyStr.isspace c = false.
Proof.
  induction s as [|d s IH]; simpl; [discriminate |].
  destruct (PyStr.isspace d) eqn:E; [exact IH |].
  now intros [= <- _].
Qed.

Lemma rstrip_nonspace_head (c : ascii) (r : string) :
  PyStr.isspace c = false -> PyStr.rstrip (String c r) <> "".
Proof.
  intros Hc. simpl. destruct (PyStr.rstrip r); [now rewrite Hc | discriminate].
Qed.

Lemma strip_nonempty (g : string) :
  all_chars PyStr.isspace g = false -> PyStr.strip g <> "".
Proof.
  unfold PyStr.strip. induction g as [|c g IH]; simpl; [discriminate |].
  destruct (PyStr.isspace c) eqn:Hc; simpl.
  - exact IH.
  - intros _. destruct (PyStr.rstrip g); [now rewrite Hc | discriminate].
Qed.

(** A trimmed, non-empty message starts with a non-space character and
    does not end in whitespace. *)
Lemma trimmed_shape (m : string) :
  m <> "" -> PyStr.strip m = m ->
  clean_end m = true
  /\ exists x r, m = String x r /\ PyStr.isspace x = false.
Proof.
  intros Hne Hs. split.
  - rewrite <- Hs. apply clean_end_rstrip.
  - destruct m as [|x r]; [congruence |]. exists x, r. split; [reflexivity |].
    unfold PyStr.strip in Hs.
    destruct (rstrip_head _ _ _ Hs) as [s' Hl].
    apply (lstrip_head _ _ _ Hl).
Qed.

Lemma space_not_newline (x : ascii) :
  PyStr.isspace x = false -> Re.cmatch Re.CDot x = true.
Proof.
  destruct x as [[] [] [] [] [] [] [] []]; vm_compute; congruence.
Qed.

End StripFacts.

Lemma seq_cons {A} (r : Re.regex) (rs : list Re.regex) (s : string) g
      (k : string -> option string -> option A) :
  Re.rmatch (Patterns.seq (r :: rs)) s g k
  = Re.rmatch r s g (fun s1 g1 => Re.rmatch (Patterns.seq rs) s1 g1 k).
Proof. reflexivity. Qed.

(** Peel the first element off a sequence that matched. *)
Tactic Notation "peel" hyp(H) "as" ident(u) ident(s) ident(g) ident(M) :=
  rewrite seq_cons in H; apply rmatch_sound in H;
  destruct H as [u [s [g [-> [M H]]]]].

Lemma last_group_set (s : string) g (a : Re.Match) :
  last_group s g = Some a -> exists t, Re.group1 a = Some t.
Proof.
  unfold last_group.
  change (Patterns.seq [Re.Group (Re.Plus Re.CDot)])
    with (Re.Seq (Re.Group (Re.Plus Re.CDot)) Re.Eps).
  rewrite group_plus_last. destruct s as [|x s]; [discriminate |].
  destruct (Re.cmatch Re.CDot x); [| discriminate].
  intros [= <-]. eexists; reflexivity.
Qed.

Lemma last_group_good (x : ascii) (r : string) g :
  PyStr.isspace x = false ->
  exists a, last_group (String x r) g = Some a /\ GoodMatch a.
Proof.
  intros Hx. unfold last_group.
  change (Patterns.seq [Re.Group (Re.Plus Re.CDot)])
    with (Re.Seq (Re.Group (Re.Plus Re.CDot)) Re.Eps).
  rewrite group_plus_last, (space_not_newline x Hx).
  eexists. split; [reflexivity |]. eexists. split; [reflexivity |].
  simpl. now rewrite Hx.
Qed.

Section AfterSpaces.
Variable k : string -> option Re.Match.

(** The continuation succeeds, with a good match, wherever a word
    starts. *)
Hypothesis k_good :
  forall (x : ascii) (r : string),
    clean_end (String x r) = true -> PyStr.isspace x = false ->
    exists a, k (String x r) = Some a /\ GoodMatch a.

Lemma spaces_alive (s : string) :
  clean_end s = true ->
  match s with
  | "" => True
  | String x _ =>
      PyStr.isspace x = true -> Re.plus_loop Re.CSpace s k <> None
  end.
Proof.
  induction s as [|x s IH]; [trivial |].
  intros Hc Hx. cbn [Re.plus_loop Re.cmatch]. rewrite Hx.
  destruct s as [|y s].
  - simpl in Hc. now rewrite Hx in Hc.
  - assert (Hc' : clean_end (String y s) = true) by exact Hc.
    destruct (PyStr.isspace y) eqn:Hy.
    + specialize (IH Hc' eq_refl).
      destruct (Re.plus_loop Re.CSpace (String y s) k);
        [discriminate | congruence].
    + destruct (Re.plus_loop Re.CSpace (String y s) k); [discriminate |].
      destruct (k_good y s Hc' Hy) as [a [-> _]]. discriminate.
Qed.

Lemma spaces_good (s : string) (a : Re.Match) :
  clean_end s = true ->
  Re.plus_loop Re.CSpace s k = Some a -> GoodMatch a.
Proof.
  induction s as [|x s IH]; [discriminate |].
  intros Hc. cbn [Re.plus_loop Re.cmatch].
  destruct (PyStr.isspace x) eqn:Hx; [| discriminate].
  destruct s as [|y s].
  - simpl in Hc. now rewrite Hx in Hc.
  - assert (Hc' : clean_end (String y s) = true) by exact Hc.
    destruct (Re.plus_loop Re.CSpace (String y s) k) as [b|] eqn:Hl.
    + intros [= <-]. now apply IH.
    + destruct (PyStr.isspace y) eqn:Hy.
      * exfalso. now apply (spaces_alive (String y s) Hc' Hy).
      * destruct (k_good y s Hc' Hy) as [a' [-> Ha']].
        now intros [= <-].
Qed.

End AfterSpaces.

Lemma to_word_good (s : string) g (a : Re.Match) :
  clean_end s = true ->
  Re.rmatch to_word s g last_group = Some a -> GoodMatch a.
Proof.
  intros Hc H. unfold to_word in H. peel H as u s1 g1 M1.
  apply clean_end_app in Hc.
  rewrite seq_cons in H. unfold Patterns.spaces in H. cbn [Re.rmatch] in H.
  eapply spaces_good; [| exact Hc | exact H].
  intros x r _ Hx. cbv beta. cbn [Patterns.seq fold_right Re.rmatch].
  now apply last_group_good.
Qed.

Lemma title_tail_good (s : string) g (a : Re.Match) :
  clean_end s = true ->
  Re.rmatch (Patterns.seq title_tail) s g
    (fun _ g' => Some {| Re.group1 := g' |}) = Some a ->
  GoodMatch a.
Proof.
  intros Hc H. unfold title_tail in H.
  rewrite seq_cons in H. unfold Patterns.spaces in H. cbn [Re.rmatch] in H.
  eapply spaces_good; [| exact Hc | exact H].
  intros x r Hc' Hx. cbv beta. rewrite seq_cons. cbn [Re.rmatch].
  change (fun (s1 : string) (g1 : option string) =>
            Re.rmatch (Patterns.seq [Re.Group (Re.Plus Re.CDot)]) s1 g1
              (fun _ g' => Some {| Re.group1 := g' |}))
    with last_group.
  destruct (Re.rmatch to_word (String x r) g last_group) as [b|] eqn:Ht.
  - exists b. split; [reflexivity |]. now apply (to_word_good _ _ _ Hc' Ht).
  - now apply last_group_good.
Qed.

Lemma title_tail_set (s : string) g (a : Re.Match) :
  Re.rmatch (Patterns.seq title_tail) s g
    (fun _ g' => Some {| Re.group1 := g' |}) = Some a ->
  exists t, Re.group1 a = Some t.
Proof.
  intros H. unfold title_tail in H.
  peel H as u1 s1 g1 M1. peel H as u2 s2 g2 M2.
  now apply last_group_set in H.
Qed.

Lemma task_to_tail (verb : string) (s : string) (a : Re.Match) :
  Re.match_at (Patterns.task_to verb) s = Some a ->
  exists u s' g, s = u ++ s'
    /\ Re.rmatch (Patterns.seq title_tail) s' g
         (fun _ g' => Some {| Re.group1 := g' |}) = Some a.
Proof.
  unfold Re.match_at, Patterns.task_to. intros H.
  peel H as u1 s1 g1 M1. peel H as u2 s2 g2 M2.
  peel H as u3 s3 g3 M3. peel H as u4 s4 g4 M4.
  exists (u1 ++ u2 ++ u3 ++ u4), s4, g4. rewrite !app_assoc.
  split; [reflexivity | exact H].
Qed.

Lemma task_to_set (verb : string) (m : string) (a : Re.Match) :
  Re.search (Patterns.task_to verb) m = Some a ->
  exists t, Re.group1 a = Some t.
Proof.
  intros H. apply search_some in H. destruct H as [pre [sp [_ H]]].
  apply task_to_tail in H. destruct H as [u [s' [g [_ H]]]].
  now apply title_tail_set in H.
Qed.

Lemma task_to_good (verb : string) (m : string) (a : Re.Match) :
  clean_end m = true ->
  Re.search (Patterns.task_to verb) m = Some a ->
  GoodMatch a.
Proof.
  intros Hc H. apply search_some in H. destruct H as [pre [sp [-> H]]].
  apply clean_end_app in Hc.
  apply task_to_tail in H. destruct H as [u [s' [g [-> H]]]].
  apply clean_end_app in Hc.
  now apply (title_tail_good _ _ _ Hc H).
Qed.

Lemma Matches_seq_inv r1 r2 (u : string) g g' :
  Matches (Re.Seq r1 r2) u g g' ->
  exists u1 u2 g1, u = u1 ++ u2 /\ Matches r1 u1 g g1 /\ Matches r2 u2 g1 g'.
Proof. inversion 1; subst. eauto 7. Qed.

Lemma Matches_plus_inv cl (u : string) g g' :
  Matches (Re.Plus cl) u g g' ->
  u <> "" /\ all_chars (Re.cmatch cl) u = true /\ g' = g.
Proof. inversion 1; subst. auto. Qed.

Lemma Matches_group_inv r (u : string) g g' :
  Matches (Re.Group r) u g g' -> g' = Some u /\ exists g1, Matches r u g g1.
Proof. inversion 1; subst. eauto. Qed.

Lemma to_my_todo_shape (sp : string) (a : Re.Match) :
  Re.match_at Patterns.to_my_todo sp = Some a ->
  exists u1 w u3 s',
    sp = u1 ++ w ++ u3 ++ s'
    /\ a = {| Re.group1 := Some u1 |}
    /\ u1 <> "" /\ all_chars (Re.cmatch Re.CDot) u1 = true
    /\ w <> "" /\ all_chars PyStr.isspace w = true
    /\ exists g g', Matches (Patterns.seq todo_rest) u3 g g'.
Proof.
  unfold Re.match_at. intros H. apply rmatch_sound in H.
  destruct H as [u [s' [g' [-> [M H]]]]]. injection H as <-.
  change Patterns.to_my_todo
    with (Re.Seq (Re.Group (Re.Plus Re.CDot))
                 (Re.Seq (Re.Plus Re.CSpace) (Patterns.seq todo_rest))) in M.
  apply Matches_seq_inv in M. destruct M as [u1 [u2 [g1 [-> [Mg M]]]]].
  apply Matches_group_inv in Mg. destruct Mg as [-> [g0 Mp]].
  apply Matches_plus_inv in Mp. destruct Mp as [Hne [Hdot _]].
  assert (Hg : g' = Some u1) by (apply (Matches_no_group _ _ _ _ M); reflexivity).
  apply Matches_seq_inv in M. destruct M as [w [u3 [g2 [-> [Mw M]]]]].
  apply Matches_plus_inv in Mw. destruct Mw as [Hw [Hsp _]].
  exists u1, w, u3, s'. rewrite !app_assoc, Hg.
  repeat split; try assumption. eauto.
Qed.

Lemma to_my_todo_build (x : ascii) (ws u1 w u3 s' : string) g g' :
  PyStr.isspace x = false ->
  all_chars PyStr.isspace ws = true ->
  all_chars PyStr.isspace u1 = true ->
  w <> "" -> all_chars PyStr.isspace w = true ->
  Matches (Patterns.seq todo_rest) u3 g g' ->
  Re.match_at Patterns.to_my_todo (String x (ws ++ u1 ++ w ++ u3 ++ s')) <> None.
Proof.
  intros Hx Hws Hu1 Hw Hsp M.
  destruct (Matches_regroup _ _ _ _ M (Some (String x ""))) as [g2 M2].
  replace (String x (ws ++ u1 ++ w ++ u3 ++ s'))
    with ((String x "" ++ (ws ++ u1 ++ w) ++ u3) ++ s')
    by (simpl; now rewrite !app_assoc).
  unfold Re.match_at.
  eapply (rmatch_complete Patterns.to_my_todo _ None g2);
    [| intros; discriminate].
  change Patterns.to_my_todo
    with (Re.Seq (Re.Group (Re.Plus Re.CDot))
                 (Re.Seq (Re.Plus Re.CSpace) (Patterns.seq todo_rest))).
  eapply M_seq.
  - eapply (M_group _ _ None None). apply M_plus; [discriminate |].
    cbn [all_chars]. now rewrite (space_not_newline x Hx).
  - eapply M_seq; [| exact M2]. apply M_plus.
    + destruct ws; [destruct u1; [destruct w; [congruence | discriminate]
                               | discriminate] | discriminate].
    + change (Re.cmatch Re.CSpace) with PyStr.isspace.
      now rewrite !all_chars_app, Hws, Hu1, Hsp.
Qed.

Lemma to_my_todo_later (s : string) :
  forall (x : ascii) (ws : string) (a : Re.Match),
    PyStr.isspace x = false ->
    all_chars PyStr.isspace ws = true ->
    Re.match_at Patterns.to_my_todo (String x (ws ++ s)) = None ->
    Re.search Patterns.to_my_todo s = Some a ->
    GoodMatch a.
Proof.
  induction s as [|y s IH]; intros x ws a Hx Hws Hnone Hs;
    cbn [Re.search] in Hs.
  - destruct (Re.match_at Patterns.to_my_todo "") as [b|] eqn:E;
      [| discriminate].
    apply to_my_todo_shape in E.
    destruct E as [u1 [w [u3 [s' [E [_ [Hne _]]]]]]].
    destruct u1; [congruence | discriminate].
  - destruct (Re.match_at Patterns.to_my_todo (String y s)) as [b|] eqn:E.
    + injection Hs as ->. apply to_my_todo_shape in E.
      destruct E as (u1 & w & u3 & s' & E & -> & Hne & _ & Hw & Hsp & g & g' & M).
      exists u1. split; [reflexivity |].
      destruct (all_chars PyStr.isspace u1) eqn:Hu1; [| reflexivity].
      exfalso. rewrite E in Hnone.
      now apply (to_my_todo_build x ws u1 w u3 s' g g' Hx Hws Hu1 Hw Hsp M).
    + destruct (PyStr.isspace y) eqn:Hy.
      * apply (IH x (ws ++ String y "") a Hx).
        -- rewrite all_chars_app, Hws. simpl. now rewrite Hy.
        -- now rewrite app_assoc.
        -- exact Hs.
      * apply (IH y "" a Hy eq_refl); [exact E | exact Hs].
Qed.

Lemma to_my_todo_good (x : ascii) (r : string) (a : Re.Match) :
  PyStr.isspace x = false ->
  Re.search Patterns.to_my_todo (String x r) = Some a ->
  GoodMatch a.
Proof.
  intros Hx Hs. cbn [Re.search] in Hs.
  destruct (Re.match_at Patterns.to_my_todo (String x r)) as [b|] eqn:E.
  - injection Hs as ->. apply to_my_todo_shape in E.
    destruct E as [u1 [w [u3 [s' [E [-> [Hne _]]]]]]].
    exists u1. split; [reflexivity |].
    destruct u1 as [|c u1]; [congruence |].
    simpl in E. injection E as <- _. simpl. now rewrite Hx.
  - now apply (to_my_todo_later r x "" a Hx eq_refl E).
Qed.

Lemma to_my_todo_set (m : string) (a : Re.Match) :
  Re.search Patterns.to_my_todo m = Some a ->
  exists t, Re.group1 a = Some t.
Proof.
  intros H. apply search_some in H. destruct H as [pre [sp [_ H]]].
  apply to_my_todo_shape in H.
  destruct H as [u1 [w [u3 [s' [_ [-> _]]]]]]. now exists u1.
Qed.

Lemma extract_task_title_eq (m : string) :
  exists g, title_source m = Some g
            /\ extract_task_title m = Ok (PyStr.strip g).
Proof.
  unfold extract_task_title, title_source, title_patterns.
  cbn [first_title].
  destruct (Re.search Patterns.add_task_to m) as [a|] eqn:E1.
  { destruct (task_to_set _ _ _ E1) as [t Ht]. exists t.
    unfold group1_text. now rewrite Ht. }
  destruct (Re.search Patterns.create_task_to m) as [a|] eqn:E2.
  { destruct (task_to_set _ _ _ E2) as [t Ht]. exists t.
    unfold group1_text. now rewrite Ht. }
  destruct (Re.search Patterns.to_my_todo m) as [a|] eqn:E3.
  { destruct (to_my_todo_set _ _ E3) as [t Ht]. exists t.
    unfold group1_text. now rewrite Ht. }
  now exists m.
Qed.

Lemma title_source_good (m g : string) :
  m <> "" -> PyStr.strip m = m ->
  title_source m = Some g -> all_chars PyStr.isspace g = false.
Proof.
  intros Hne Hs. destruct (trimmed_shape m Hne Hs) as [Hc [x [r [-> Hx]]]].
  unfold title_source.
  destruct (Re.search Patterns.add_task_to (String x r)) as [a|] eqn:E1.
  { destruct (task_to_good _ _ _ Hc E1) as [t [Ht Hg]]. congruence. }
  destruct (Re.search Patterns.create_task_to (String x r)) as [a|] eqn:E2.
  { destruct (task_to_good _ _ _ Hc E2) as [t [Ht Hg]]. congruence. }
  destruct (Re.search Patterns.to_my_todo (String x r)) as [a|] eqn:E3.
  { destruct (to_my_todo_good _ _ _ Hx E3) as [t [Ht Hg]]. congruence. }
  intros [= <-]. simpl. now rewrite Hx.
Qed.

(** C2 as the code has it, for an ASCII message.  [extract_task_title] does
    not raise: it returns the trimmed capture of the first of its three
    templates that matches, and the whole trimmed message when none does.
    The string it returns is non-empty for every non-empty ASCII message
    with no whitespace at either end. *)
Theorem C2_title_extraction (m : string) :
  PyStr.isascii m = true ->
  (exists g, title_source m = Some g
             /\ extract_task_title m = Ok (PyStr.strip g))
  /\ (Re.search Patterns.add_task_to m = None ->
      Re.search Patterns.create_task_to m = None ->
      Re.search Patterns.to_my_todo m = None ->
      extract_task_title m = Ok (PyStr.strip m))
  /\ (m <> "" -> PyStr.strip m = m ->
      exists t, extract_task_title m = Ok t /\ t <> "").
Proof.
  intros _. split; [apply extract_task_title_eq |]. split.
  - intros E1 E2 E3. destruct (extract_task_title_eq m) as [g [Hg ->]].
    unfold title_source in Hg. rewrite E1, E2, E3 in Hg. congruence.
  - intros Hne Hs. destruct (extract_task_title_eq m) as [g [Hg ->]].
    eexists. split; [reflexivity |].
    apply strip_nonempty. now apply (title_source_good m g).
Qed.

Lemma C2_witness :
  PyStr.isascii "remind me to add task water plants" = true
  /\ exists t, extract_task_title "remind me to add task water plants" = Ok t
               /\ t <> "".
Proof.
  split; [reflexivity |].
  apply (proj2 (proj2 (C2_title_extraction
                         "remind me to add task water plants" eq_refl))).
  - discriminate.
  - reflexivity.
Defined.

(** C2 as the specification has it fails: a message of one space is
    non-empty and gives the empty title, and so does a message that has only
    whitespace where a template captures. *)
Lemma C2_counterexample :
  ~ (forall m, m <> "" ->
               exists t, extract_task_title m = Ok t /\ t <> "").
Proof.
  intros H. destruct (H " ") as [t [Ht Hne]]; [discriminate |].
  vm_compute in Ht. injection Ht as <-. now apply Hne.
Qed.

Example extract_task_title_blank_capture :
  extract_task_title "add task  " = Ok ""
  /\ extract_task_title "  to task" = Ok "".
Proof. split; reflexivity. Qed.

(** ** The chat endpoint *)

Section LowerDigits.

Lemma isdigit_lower_char (c : ascii) :
  PyStr.isdigit (PyStr.lower_char c) = PyStr.isdigit c.
Proof. destruct c as [[] [] [] [] [] [] [] []]; reflexivity. Qed.

Lemma lower_char_digit (c : ascii) :
  PyStr.isdigit c = true -> PyStr.lower_char c = c.
Proof.
  destruct c as [[] [] [] [] [] [] [] []]; vm_compute; congruence.
Qed.

Lemma take_digits_lower (s : string) :
  take_class Re.CDigit (PyStr.lower s) = take_class Re.CDigit s.
Proof.
  induction s as [|c s IH]; [reflexivity |].
  cbn [PyStr.lower take_class Re.cmatch]. rewrite isdigit_lower_char.
  destruct (PyStr.isdigit c) eqn:Hc; [| reflexivity].
  now rewrite IH, (lower_char_digit c Hc).
Qed.

Lemma first_digits_lower (s : string) :
  first_digits (PyStr.lower s) = first_digits s.
Proof.
  induction s as [|c s IH]; [reflexivity |].
  cbn [PyStr.lower first_digits]. rewrite isdigit_lower_char.
  destruct (PyStr.isdigit c) eqn:Hc; [| exact IH].
  now rewrite take_digits_lower, (lower_char_digit c Hc).
Qed.

End LowerDigits.

(** C10.  Task 0 cannot be reached through the chat: for a message whose
    first run of digits is "0", [extract_task_id] returns the integer 0, and
    the complete, delete and update branches take it for a missing id: they
    answer "Could not identify task ID" and call no tool, so that the world
    stays as it was, whatever rows it holds. *)
Theorem C10_task_zero_unreachable (uid : string) (request : ChatRequest.t)
        (w : world) :
  FirstDigitRun (ChatRequest.message request) "0" ->
  let message := PyStr.lower (ChatRequest.message request) in
  extract_task_id (ChatRequest.message request) = Ok (Some 0%Z)
  /\ extract_task_id message = Ok (Some 0%Z)
  /\ (classify message = IComplete ->
      chat_with_bot uid request w = (inr (reply request no_id_complete), w))
  /\ (classify message = IDelete ->
      chat_with_bot uid request w = (inr (reply request no_id_delete), w))
  /\ (classify message = IUpdate ->
      chat_with_bot uid request w = (inr (reply request no_id_update), w))
  /\ PyStr.contains "Could not identify task ID" no_id_complete = true
  /\ PyStr.contains "Could not identify task ID" no_id_delete = true
  /\ PyStr.contains "Could not identify task ID" no_id_update = true.
Proof.
  intros Hrun message. apply first_digits_run in Hrun.
  assert (Hid : extract_task_id message = Ok (Some 0%Z)).
  { unfold message. now rewrite extract_task_id_eq, first_digits_lower, Hrun. }
  split; [now rewrite extract_task_id_eq, Hrun |]. split; [exact Hid |].
  split; [| split; [| split]].
  - intros Hc. unfold chat_with_bot, chat_body. fold message. rewrite Hc.
    unfold complete_branch, bind, lift. now rewrite Hid.
  - intros Hc. unfold chat_with_bot, chat_body. fold message. rewrite Hc.
    unfold delete_branch, bind, lift. now rewrite Hid.
  - intros Hc. unfold chat_with_bot, chat_body. fold message. rewrite Hc.
    unfold update_branch, bind, lift. rewrite Hid.
    destruct (extract_task_title_eq message) as [g [_ ->]]. reflexivity.
  - repeat split; reflexivity.
Qed.

Lemma C10_witness :
  FirstDigitRun "Mark task 0 as done" "0"
  /\ chat_with_bot "u1" (ChatRequest.mk None "Mark task 0 as done") zero_world
     = (inr (reply (ChatRequest.mk None "Mark task 0 as done") no_id_complete),
        zero_world).
Proof.
  assert (H : FirstDigitRun "Mark task 0 as done" "0").
  { exists "Mark task ", " as done". repeat split; discriminate. }
  split; [exact H |].
  apply (C10_task_zero_unreachable "u1"
           (ChatRequest.mk None "Mark task 0 as done") zero_world H).
  reflexivity.
Defined.

(** *** A tool's "Task not found" at the endpoint *)

(** In the complete and delete branches a task id the caller does not own
    ends in the HTTP 500 answer: the [ValueError] of the tool leaves
    [handle_tool_call] and the branch, and [except Exception] catches it. *)
Lemma unowned_id_is_internal_error (uid : string) (request : ChatRequest.t)
      (w : world) (n : Z) :
  let message := PyStr.lower (ChatRequest.message request) in
  classify message = IComplete \/ classify message = IDelete ->
  extract_task_id message = Ok (Some n) ->
  n <> 0%Z ->
  (forall task, In task (tasks w) -> id task = n -> user_id task <> uid) ->
  chat_with_bot uid request w = (inl internal_error, w).
Proof.
  intros message Hc Hid Hn Hown.
  pose proof (load_owned_not_found w uid n Hown) as Hl.
  apply Z.eqb_neq in Hn.
  unfold chat_with_bot, chat_body. fold message.
  destruct Hc as [-> | ->].
  - unfold complete_branch, bind, lift. rewrite Hid.
    cbn [id_truthy]. rewrite Hn. cbn.
    unfold complete_task_tool, bind. now rewrite Hl.
  - unfold delete_branch, bind, lift. rewrite Hid.
    cbn [id_truthy]. rewrite Hn. cbn.
    unfold delete_task_tool, bind. now rewrite Hl.
Qed.

(** C8 on the code.  User "u2" asks to complete, delete and change task 1,
    which belongs to "u1".  Each tool raises "Task not found"; the endpoint
    answers each request with the HTTP 500 "Internal server error", in which
    the tool's message does not occur, and sends no reply text. *)
Theorem C8_not_found_is_internal_error :
  complete_task_tool "u2" 1 demo_world
  = (Raise (ValueError "Task not found"), demo_world)
  /\ chat_with_bot "u2" (ChatRequest.mk None "complete task 1") demo_world
     = (inl internal_error, demo_world)
  /\ chat_with_bot "u2" (ChatRequest.mk None "delete task 1") demo_world
     = (inl internal_error, demo_world)
  /\ chat_with_bot "u2" (ChatRequest.mk None "change task 1 to walk dog")
       demo_world
     = (inl internal_error, demo_world)
  /\ chat_with_bot "u2" (ChatRequest.mk None "complete task 7") demo_world
     = (inl internal_error, demo_world)
  /\ PyStr.contains "Task not found" (detail internal_error) = false.
Proof. repeat split; reflexivity. Qed.

(* ================================================================== *)
(** * Further properties *)

(** ** Keys *)

Lemma max_key_bounds (rest : list Task) (a : Z) :
  (a <= fold_right (fun r m => Z.max (id r) m) a rest)%Z
  /\ forall r, In r rest ->
               (id r <= fold_right (fun r m => Z.max (id r) m) a rest)%Z.
Proof.
  induction rest as [|x rest [IH1 IH2]]; cbn [fold_right].
  - split; [lia | intros r []].
  - split; [lia |]. intros r [-> | Hr]; [lia |]. specialize (IH2 r Hr). lia.
Qed.

Lemma fresh_id_above (rows : list Task) (t : Task) :
  In t rows -> (id t < Session.fresh_id rows)%Z.
Proof.
  destruct rows as [|x rest]; [intros [] |]. cbn [Session.fresh_id].
  destruct (max_key_bounds rest (id x)) as [H1 H2].
  intros [-> | Hin]; [lia |]. specialize (H2 t Hin). lia.
Qed.

Lemma fresh_id_new (rows : list Task) :
  ~ In (Session.fresh_id rows) (map id rows).
Proof.
  intros Hin. apply in_map_iff in Hin. destruct Hin as [t [E Ht]].
  pose proof (fresh_id_above _ _ Ht). lia.
Qed.

Lemma find_last {A} (p : A -> bool) (l : list A) (x : A) :
  (forall y, In y l -> p y = false) -> p x = true ->
  find p (l ++ [x]) = Some x.
Proof.
  intros Hl Hx. induction l as [|y l IH]; simpl.
  - now rewrite Hx.
  - rewrite (Hl y (or_introl eq_refl)). apply IH.
    intros z Hz. apply Hl. now right.
Qed.

(** ** Complete and delete *)

Lemma find_replaced (tid : Z) (rows : list Task) (t t' : Task) :
  find (fun r => (id r =? tid)%Z) rows = Some t ->
  id t' = tid ->
  find (fun r => (id r =? tid)%Z)
       (map (fun r => if (id r =? tid)%Z then t' else r) rows) = Some t'.
Proof.
  intros Hf Hid. induction rows as [|r rows IH]; [discriminate |].
  simpl in *. destruct (id r =? tid)%Z eqn:E.
  - now rewrite Hid, Z.eqb_refl.
  - rewrite E. now apply IH.
Qed.

Lemma guard_raises (w : world) (uid : string) (tid : Z) :
  load_owned uid tid w = (Raise not_found, w) ->
  complete_task_tool uid tid w = (Raise not_found, w)
  /\ delete_task_tool uid tid w = (Raise not_found, w)
  /\ forall ttl descr,
       update_task_tool uid tid ttl descr w = (Raise not_found, w).
Proof.
  intros Hl. repeat split; intros;
    unfold complete_task_tool, delete_task_tool, update_task_tool, bind;
    now rewrite Hl.
Qed.

Lemma view_id (t : Task) : Dict.lookup "id" (task_view t) = Some (VInt (id t)).
Proof. reflexivity. Qed.

(** X2.  [complete_task] on a row the caller owns succeeds: the row is
    stored with the completion flag set and the update time read off the
    clock, its other fields kept, and the dictionary returned carries its
    key and title.  After it the caller's listing for "completed" shows the
    row, and the listing for "pending" has no entry under its key. *)
Theorem X2_complete_task_effect (w : world) (uid : string) (tid : Z)
        (t : Task) :
  find (fun r => (id r =? tid)%Z) (tasks w) = Some t ->
  user_id t = uid ->
  let row := completed_row w t in
  exists w',
    complete_task_tool uid tid w
    = (Ok [("task_id", VInt tid); ("status", VStr "completed");
           ("title", VStr (title t))], w')
    /\ tasks w' = map (fun r => if (id r =? tid)%Z then row else r) (tasks w)
    /\ find (fun r => (id r =? tid)%Z) (tasks w') = Some row
    /\ (exists lc, list_tasks_tool uid "completed" w' = (Ok lc, w')
                   /\ In (task_view row) lc)
    /\ (exists lp, list_tasks_tool uid "pending" w' = (Ok lp, w')
                   /\ forall e, In e lp ->
                                Dict.lookup "id" e <> Some (VInt tid)).
Proof.
  intros Hf Hu row.
  pose proof (find_some _ _ Hf) as [Hin Hid]. apply Z.eqb_eq in Hid.
  assert (Hrow : id row = tid) by exact Hid.
  unfold complete_task_tool, bind.
  rewrite (load_owned_found w uid tid t Hf Hu).
  unfold utcnow, Session.update, ret. cbn [fst snd tasks clock id title].
  fold (completed_row w t). fold row. rewrite Hid.
  eexists. split; [reflexivity |]. cbn [tasks].
  split; [reflexivity |].
  pose proof (find_replaced tid (tasks w) t row Hf Hrow) as Hf'.
  split; [exact Hf' |]. split.
  - eexists. split; [apply list_tasks_tool_eq |]. cbn [tasks].
    apply in_map, filter_In. split.
    + apply (find_some _ _ Hf').
    + unfold listedb. cbn. apply String.eqb_eq in Hu. now rewrite Hu.
  - eexists. split; [apply list_tasks_tool_eq |]. cbn [tasks].
    intros e He. apply in_map_iff in He. destruct He as [r [<- Hr]].
    apply filter_In in Hr. destruct Hr as [Hr Hl].
    rewrite view_id. intros [= E].
    apply in_map_iff in Hr. destruct Hr as [r0 [Hr0 _]].
    unfold listedb in Hl. cbn in Hl. apply andb_true_iff in Hl.
    destruct Hl as [_ Hc].
    destruct (id r0 =? tid)%Z eqn:E0.
    + subst r. discriminate.
    + subst r. apply Z.eqb_neq in E0. contradiction.
Qed.

Lemma X2_witness :
  exists w',
    complete_task_tool "u1" 1 shared_world
    = (Ok [("task_id", VInt 1); ("status", VStr "completed");
           ("title", VStr "buy milk")], w')
    /\ exists lp, list_tasks_tool "u1" "pending" w' = (Ok lp, w')
                  /\ forall e, In e lp -> Dict.lookup "id" e <> Some (VInt 1).
Proof.
  destruct (X2_complete_task_effect shared_world "u1" 1 _ eq_refl eq_refl)
    as [w' [H1 [_ [_ [_ H5]]]]].
  exists w'. split; [exact H1 | exact H5].
Defined.

(** X3.  [delete_task] on a row the caller owns succeeds and returns its
    key and title; the table loses the rows under that key and nothing else,
    and the clock is not read.  After it the key is gone for everyone:
    [complete_task], [update_task] and [delete_task] on it raise "Task not
    found", and no listing has an entry under it. *)
Theorem X3_delete_task_effect (w : world) (uid : string) (tid : Z)
        (t : Task) :
  find (fun r => (id r =? tid)%Z) (tasks w) = Some t ->
  user_id t = uid ->
  exists w',
    delete_task_tool uid tid w
    = (Ok [("task_id", VInt tid); ("status", VStr "deleted");
           ("title", VStr (title t))], w')
    /\ tasks w' = filter (fun r => negb (id r =? tid)%Z) (tasks w)
    /\ clock w' = clock w
    /\ (forall u,
          complete_task_tool u tid w' = (Raise not_found, w')
          /\ delete_task_tool u tid w' = (Raise not_found, w')
          /\ forall ttl descr,
               update_task_tool u tid ttl descr w' = (Raise not_found, w'))
    /\ (forall u status,
          exists l, list_tasks_tool u status w' = (Ok l, w')
                    /\ forall e, In e l ->
                                 Dict.lookup "id" e <> Some (VInt tid)).
Proof.
  intros Hf Hu.
  pose proof (find_some _ _ Hf) as [Hin Hid]. apply Z.eqb_eq in Hid.
  unfold delete_task_tool, bind.
  rewrite (load_owned_found w uid tid t Hf Hu).
  unfold Session.delete, ret. cbn [fst snd]. rewrite Hid.
  eexists. split; [reflexivity |]. cbn [tasks clock].
  split; [reflexivity |]. split; [reflexivity |].
  assert (Hgone : forall r,
             In r (filter (fun r => negb (id r =? tid)%Z) (tasks w)) ->
             id r <> tid).
  { intros r Hr. apply filter_In in Hr. destruct Hr as [_ Hr].
    apply negb_true_iff in Hr. now apply Z.eqb_neq. }
  split.
  - intros u. apply guard_raises. apply load_owned_not_found.
    cbn [tasks]. intros task Ht E. exfalso. now apply (Hgone task).
  - intros u status. eexists. split; [apply list_tasks_tool_eq |].
    cbn [tasks]. intros e He. apply in_map_iff in He.
    destruct He as [r [<- Hr]]. apply filter_In in Hr.
    destruct Hr as [Hr _]. rewrite view_id. intros [= E].
    now apply (Hgone r).
Qed.

Lemma X3_witness :
  exists w',
    delete_task_tool "u1" 5 shared_world
    = (Ok [("task_id", VInt 5); ("status", VStr "deleted");
           ("title", VStr "pay rent")], w')
    /\ complete_task_tool "u1" 5 w' = (Raise not_found, w').
Proof.
  destruct (X3_delete_task_effect shared_world "u1" 5 _ eq_refl eq_refl)
    as [w' [H1 [_ [_ [H4 _]]]]].
  exists w'. split; [exact H1 | apply (H4 "u1")].
Defined.

(** ** Unique keys and the rows of other users *)

Section TableFacts.

Lemma NoDup_snoc {A} (l : list A) (x : A) :
  NoDup l -> ~ In x l -> NoDup (l ++ [x]).
Proof.
  induction l as [|y l IH]; intros Hl Hx; simpl.
  - constructor; [intros [] | constructor].
  - inversion Hl as [|y' l' Hy Hl']; subst. constructor.
    + rewrite in_app_iff. intros [Hin | [-> | []]]; [contradiction |].
      apply Hx. now left.
    + apply IH; [assumption |]. intros Hin. apply Hx. now right.
Qed.

Lemma NoDup_map_filter {A B} (f : A -> B) (q : A -> bool) (l : list A) :
  NoDup (map f l) -> NoDup (map f (filter q l)).
Proof.
  induction l as [|x l IH]; simpl; intros Hl; [constructor |].
  inversion Hl as [|y l' Hx Hl']; subst.
  destruct (q x); simpl; [| now apply IH].
  constructor; [| now apply IH].
  intros Hin. apply Hx. apply in_map_iff in Hin.
  destruct Hin as [z [Hz Hin]]. apply filter_In in Hin.
  apply in_map_iff. exists z. tauto.
Qed.

Lemma unique_key_row (rows : list Task) (r t : Task) :
  NoDup (map id rows) -> In r rows -> In t rows -> id r = id t -> r = t.
Proof.
  induction rows as [|x rows IH]; intros Hn Hr Ht E; [destruct Hr |].
  simpl in Hn. inversion Hn as [|y l Hx Hn']; subst.
  destruct Hr as [-> | Hr], Ht as [-> | Ht].
  - reflexivity.
  - exfalso. apply Hx. rewrite E. now apply in_map.
  - exfalso. apply Hx. rewrite <- E. now apply in_map.
  - now apply IH.
Qed.

Lemma filter_map_same {A} (p : A -> bool) (f : A -> A) (l : list A) :
  (forall x, In x l -> p (f x) = p x /\ (p x = true -> f x = x)) ->
  filter p (map f l) = filter p l.
Proof.
  induction l as [|x l IH]; intros H; [reflexivity |]. simpl.
  destruct (H x (or_introl eq_refl)) as [Hp Hf]. rewrite Hp.
  rewrite IH by (intros y Hy; apply H; now right).
  destruct (p x); [now rewrite Hf | reflexivity].
Qed.

Lemma filter_narrow {A} (p q : A -> bool) (l : list A) :
  (forall x, In x l -> p x = true -> q x = true) ->
  filter p (filter q l) = filter p l.
Proof.
  induction l as [|x l IH]; intros H; [reflexivity |]. simpl.
  rewrite <- IH by (intros y Hy; apply H; now right).
  destruct (q x) eqn:Hq; simpl; [reflexivity |].
  destruct (p x) eqn:Hp; [| reflexivity].
  rewrite (H x (or_introl eq_refl) Hp) in Hq. discriminate.
Qed.

End TableFacts.

Lemma replace_safe (rows : list Task) (uid : string) (tid : Z) (t t' : Task) :
  NoDup (map id rows) ->
  find (fun r => (id r =? tid)%Z) rows = Some t ->
  user_id t = uid -> id t' = tid -> user_id t' = uid ->
  let stored := map (fun r => if (id r =? tid)%Z then t' else r) rows in
  NoDup (map id stored) /\ filter (other uid) stored = filter (other uid) rows.
Proof.
  intros Hn Hf Hu Hid Hu' stored. unfold stored.
  pose proof (find_some _ _ Hf) as [Hin Ht]. apply Z.eqb_eq in Ht.
  split.
  - rewrite map_map.
    rewrite (map_ext (fun r => id (if (id r =? tid)%Z then t' else r)) id);
      [assumption |].
    intros r. destruct (id r =? tid)%Z eqn:E; [| reflexivity].
    apply Z.eqb_eq in E. congruence.
  - apply filter_map_same. intros r Hr.
    destruct (id r =? tid)%Z eqn:E; [| tauto].
    apply Z.eqb_eq in E.
    assert (r = t) by (apply (unique_key_row rows); congruence).
    subst r. unfold other. rewrite Hu, Hu', String.eqb_refl.
    split; [reflexivity | discriminate].
Qed.

Lemma remove_safe (rows : list Task) (uid : string) (tid : Z) (t : Task) :
  NoDup (map id rows) ->
  find (fun r => (id r =? tid)%Z) rows = Some t ->
  user_id t = uid ->
  let kept := filter (fun r => negb (id r =? tid)%Z) rows in
  NoDup (map id kept) /\ filter (other uid) kept = filter (other uid) rows.
Proof.
  intros Hn Hf Hu kept. unfold kept.
  pose proof (find_some _ _ Hf) as [Hin Ht]. apply Z.eqb_eq in Ht.
  split; [now apply NoDup_map_filter |].
  apply filter_narrow. intros r Hr Ho.
  apply negb_true_iff, Z.eqb_neq. intros E.
  assert (r = t) by (apply (unique_key_row rows); congruence).
  subst r. unfold other in Ho. rewrite Hu, String.eqb_refl in Ho.
  discriminate.
Qed.

Lemma load_owned_cases (w : world) (uid : string) (tid : Z) :
  load_owned uid tid w = (Raise not_found, w)
  \/ exists t, find (fun r => (id r =? tid)%Z) (tasks w) = Some t
               /\ user_id t = uid
               /\ load_owned uid tid w = (Ok t, w).
Proof.
  unfold load_owned, bind, Session.get.
  destruct (find (fun r => (id r =? tid)%Z) (tasks w)) as [t|] eqn:Hf;
    [| now left].
  destruct (String.eqb_spec (user_id t) uid) as [E | E]; [| now left].
  right. exists t. repeat split; assumption.
Qed.

Section Safety.
Variable uid : string.

Lemma read_only_safe {A} (m : M A) : read_only m -> safe_for uid m.
Proof. intros H w Hw. rewrite (H w). now split. Qed.

Lemma read_only_ret {A} (a : A) : read_only (ret a).
Proof. intros w. reflexivity. Qed.

Lemma read_only_raise {A} (e : exn) : read_only (@raise A e).
Proof. intros w. reflexivity. Qed.

Lemma read_only_lift {A} (o : outcome A) : read_only (lift o).
Proof. intros w. reflexivity. Qed.

Lemma read_only_bind {A B} (m : M A) (f : A -> M B) :
  read_only m -> (forall a, read_only (f a)) -> read_only (bind m f).
Proof.
  intros Hm Hf w. unfold bind. specialize (Hm w).
  destruct (m w) as [[a | e] w1]; simpl in Hm; subst w1; [apply Hf | reflexivity].
Qed.

Lemma safe_bind {A B} (m : M A) (f : A -> M B) :
  safe_for uid m -> (forall a, safe_for uid (f a)) -> safe_for uid (bind m f).
Proof.
  intros Hm Hf w Hw. unfold bind. destruct (Hm w Hw) as [H1 H2].
  destruct (m w) as [[a | e] w1]; simpl in *.
  - destruct (Hf a w1 H1) as [H3 H4]. split; [assumption | congruence].
  - now split.
Qed.

Lemma safe_add_task (ttl descr : string) :
  safe_for uid (add_task_tool uid ttl descr).
Proof.
  intros w Hw. unfold add_task_tool, utcnow, Session.insert, bind, ret.
  cbn [fst snd tasks]. unfold unique_keys, rows_of_others in *. cbn [tasks].
  split.
  - rewrite map_app. apply NoDup_snoc; [assumption |]. cbn [map id].
    intros Hin. apply in_map_iff in Hin. destruct Hin as [t [E Ht]].
    pose proof (fresh_id_above _ _ Ht). lia.
  - rewrite filter_app. cbn [filter]. unfold other at 2. cbn [user_id].
    rewrite String.eqb_refl. apply List.app_nil_r.
Qed.

Lemma safe_list_tasks (u status : string) :
  safe_for uid (list_tasks_tool u status).
Proof.
  apply read_only_safe. intros w. now rewrite list_tasks_tool_eq.
Qed.

Lemma safe_complete_task (tid : Z) : safe_for uid (complete_task_tool uid tid).
Proof.
  intros w Hw. unfold complete_task_tool, bind.
  destruct (load_owned_cases w uid tid) as [-> | [t [Hf [Hu ->]]]];
    [now split |].
  cbn. unfold unique_keys, rows_of_others. cbn [tasks].
  apply (replace_safe (tasks w) uid (id t) t); try assumption; try reflexivity.
  pose proof (find_some _ _ Hf) as [_ E]. apply Z.eqb_eq in E.
  now rewrite E.
Qed.

Lemma safe_update_task (tid : Z) (ttl descr : option string) :
  safe_for uid (update_task_tool uid tid ttl descr).
Proof.
  intros w Hw. unfold update_task_tool, bind.
  destruct (load_owned_cases w uid tid) as [-> | [t [Hf [Hu ->]]]];
    [now split |].
  cbn. unfold unique_keys, rows_of_others. cbn [tasks].
  apply (replace_safe (tasks w) uid (id t) t); try assumption; try reflexivity.
  pose proof (find_some _ _ Hf) as [_ E]. apply Z.eqb_eq in E.
  now rewrite E.
Qed.

Lemma safe_delete_task (tid : Z) : safe_for uid (delete_task_tool uid tid).
Proof.
  intros w Hw. unfold delete_task_tool, bind.
  destruct (load_owned_cases w uid tid) as [-> | [t [Hf [Hu ->]]]];
    [now split |].
  cbn. unfold unique_keys, rows_of_others. cbn [tasks].
  apply (remove_safe (tasks w) uid (id t) t); try assumption.
  pose proof (find_some _ _ Hf) as [_ E]. apply Z.eqb_eq in E.
  now rewrite E.
Qed.

Lemma safe_ret_after {A B} (m : M A) (g : A -> B) :
  safe_for uid m -> safe_for uid (bind m (fun a => ret (g a))).
Proof.
  intros H. apply safe_bind; [exact H |].
  intros a. apply read_only_safe, read_only_ret.
Qed.

Lemma safe_handle_tool_call (tool_name : string) (kw : kwargs) :
  kw_user_id kw = Some uid ->
  safe_for uid (handle_tool_call tool_name kw).
Proof.
  intros Hk. unfold handle_tool_call, TOOLS. cbn [dispatch name func].
  repeat match goal with
         | |- safe_for _ (if ?c then _ else _) => destruct c
         end;
    unfold call_add_task, call_list_tasks, call_complete_task,
      call_update_task, call_delete_task;
    rewrite ?Hk;
    repeat match goal with
           | |- safe_for _ (if ?c then _ else _) => destruct c
           | |- safe_for _ (match ?x with Some _ => _ | None => _ end) =>
               destruct x
           | |- safe_for _ (raise _) => apply read_only_safe, read_only_raise
           end;
    apply safe_ret_after;
    auto using safe_add_task, safe_list_tasks, safe_complete_task,
      safe_update_task, safe_delete_task.
Qed.

End Safety.

Lemma listing_of_other (uid u' status : string) (w w' : world) :
  u' <> uid ->
  rows_of_others uid w' = rows_of_others uid w ->
  list_tasks_tool u' status w' = (fst (list_tasks_tool u' status w), w').
Proof.
  intros Hne Ho. rewrite !list_tasks_tool_eq. cbn [fst].
  do 3 f_equal. unfold rows_of_others in Ho.
  rewrite <- (filter_narrow (listedb u' status) (other uid) (tasks w')),
          <- (filter_narrow (listedb u' status) (other uid) (tasks w)).
  - now rewrite Ho.
  - intros r _ Hl. unfold listedb in Hl. apply andb_true_iff in Hl.
    destruct Hl as [Hl _]. apply String.eqb_eq in Hl. unfold other.
    apply negb_true_iff, String.eqb_neq. congruence.
  - intros r _ Hl. unfold listedb in Hl. apply andb_true_iff in Hl.
    destruct Hl as [Hl _]. apply String.eqb_eq in Hl. unfold other.
    apply negb_true_iff, String.eqb_neq. congruence.
Qed.

(** X4.  Whatever tool is called for a user through the registry, with
    whatever arguments, and whether it returns or raises: on a table with
    unique keys the keys stay unique, the rows of all other users are left
    as they are, and so every other user's listing is the same before and
    after. *)
Theorem X4_tool_call_isolation (tool_name : string) (kw : kwargs)
        (uid : string) (w : world) :
  kw_user_id kw = Some uid ->
  unique_keys w ->
  let w' := snd (handle_tool_call tool_name kw w) in
  unique_keys w'
  /\ rows_of_others uid w' = rows_of_others uid w
  /\ forall u' status,
       u' <> uid ->
       list_tasks_tool u' status w' = (fst (list_tasks_tool u' status w), w').
Proof.
  intros Hk Hw w'.
  destruct (safe_handle_tool_call uid tool_name kw Hk w Hw) as [H1 H2].
  split; [exact H1 |]. split; [exact H2 |].
  intros u' status Hne. now apply (listing_of_other uid).
Qed.

Lemma X4_witness :
  list_tasks_tool "u2" "all"
    (snd (handle_tool_call "delete_task" (id_kwargs "u1" (Some 1%Z) None)
            shared_world))
  = (fst (list_tasks_tool "u2" "all" shared_world),
     snd (handle_tool_call "delete_task" (id_kwargs "u1" (Some 1%Z) None)
            shared_world)).
Proof.
  refine (proj2 (proj2 (X4_tool_call_isolation "delete_task"
                          (id_kwargs "u1" (Some 1%Z) None) "u1" shared_world
                          eq_refl _)) "u2" "all" _).
  - unfold unique_keys. cbn.
    repeat (constructor; [cbn; intuition discriminate |]). constructor.
  - discriminate.
Defined.

(** ** The branches of the chat endpoint *)

Section ChatSafety.
Variable uid : string.

Lemma read_only_result_get (key default : string) (r : result) :
  read_only (result_get key default r).
Proof. destruct r; [apply read_only_ret | apply read_only_raise]. Qed.

Lemma read_only_render (done : string) (r : result) : read_only (render done r).
Proof.
  unfold render. destruct (result_has "task_id" r);
    (apply read_only_bind; [apply read_only_result_get |]);
    intros a; apply read_only_ret.
Qed.

Lemma read_only_task_line (task : dict) : read_only (task_line task).
Proof.
  unfold task_line.
  repeat (apply read_only_bind; [apply read_only_lift | intros ?]).
  apply read_only_ret.
Qed.

Lemma read_only_mapM {A B} (f : A -> M B) (l : list A) :
  (forall x, read_only (f x)) -> read_only (mapM f l).
Proof.
  intros Hf. induction l as [|x l IH]; cbn [mapM]; [apply read_only_ret |].
  apply read_only_bind; [apply Hf | intros y].
  apply read_only_bind; [apply IH | intros ys]. apply read_only_ret.
Qed.

Lemma safe_then_render (done tool_name : string) (kw : kwargs) :
  kw_user_id kw = Some uid ->
  safe_for uid (r <- handle_tool_call tool_name kw ;; render done r).
Proof.
  intros Hk. apply safe_bind; [now apply safe_handle_tool_call |].
  intros r. apply read_only_safe, read_only_render.
Qed.

Lemma safe_add_branch (request : ChatRequest.t) (message : string) :
  safe_for uid (add_branch uid request message).
Proof.
  unfold add_branch.
  apply safe_bind; [apply read_only_safe, read_only_lift | intros ttl].
  destruct (PyStr.truthy ttl); [| apply read_only_safe, read_only_ret].
  apply safe_bind; [now apply safe_handle_tool_call | intros r].
  apply read_only_safe, read_only_bind; [apply read_only_result_get |].
  intros t. apply read_only_ret.
Qed.

Lemma safe_list_branch (message : string) :
  safe_for uid (list_branch uid message).
Proof.
  unfold list_branch.
  apply safe_bind; [now apply safe_handle_tool_call | intros r].
  apply read_only_safe.
  destruct r as [[|e d] | [|e l]];
    try apply read_only_ret; try apply read_only_raise.
  apply read_only_bind; [| intros lines; apply read_only_ret].
  apply read_only_mapM, read_only_task_line.
Qed.

Lemma safe_complete_branch (message : string) :
  safe_for uid (complete_branch uid message).
Proof.
  unfold complete_branch.
  apply safe_bind; [apply read_only_safe, read_only_lift | intros task_id].
  destruct (id_truthy task_id); [| apply read_only_safe, read_only_ret].
  now apply safe_then_render.
Qed.

Lemma safe_delete_branch (message : string) :
  safe_for uid (delete_branch uid message).
Proof.
  unfold delete_branch.
  apply safe_bind; [apply read_only_safe, read_only_lift | intros task_id].
  destruct (id_truthy task_id); [| apply read_only_safe, read_only_ret].
  now apply safe_then_render.
Qed.

Lemma safe_update_branch (message : string) :
  safe_for uid (update_branch uid message).
Proof.
  unfold update_branch.
  apply safe_bind; [apply read_only_safe, read_only_lift | intros task_id].
  apply safe_bind; [apply read_only_safe, read_only_lift | intros new_title].
  destruct (id_truthy task_id && PyStr.truthy new_title);
    [| apply read_only_safe, read_only_ret].
  now apply safe_then_render.
Qed.

Lemma safe_chat_body (request : ChatRequest.t) :
  safe_for uid (chat_body uid request).
Proof.
  unfold chat_body.
  apply safe_bind; [| intros response; apply read_only_safe, read_only_ret].
  destruct (classify _).
  - apply safe_add_branch.
  - apply safe_list_branch.
  - apply safe_complete_branch.
  - apply safe_delete_branch.
  - apply safe_update_branch.
  - apply read_only_safe, read_only_ret.
Qed.

End ChatSafety.

(** X5.  Whatever a user writes to the chat endpoint, and whether the
    request is answered or ends in the HTTP 500: on a table with unique keys
    the keys stay unique, the rows of all other users are left as they are,
    and every other user's listing is the same before and after. *)
Theorem X5_chat_isolation (uid : string) (request : ChatRequest.t)
        (w : world) :
  unique_keys w ->
  let w' := snd (chat_with_bot uid request w) in
  unique_keys w'
  /\ rows_of_others uid w' = rows_of_others uid w
  /\ forall u' status,
       u' <> uid ->
       list_tasks_tool u' status w' = (fst (list_tasks_tool u' status w), w').
Proof.
  intros Hw w'.
  assert (E : w' = snd (chat_body uid request w)).
  { unfold w', chat_with_bot.
    now destruct (chat_body uid request w) as [[r | e] w1]. }
  destruct (safe_chat_body uid request w Hw) as [H1 H2]. rewrite <- E in *.
  split; [exact H1 |]. split; [exact H2 |].
  intros u' status Hne. now apply (listing_of_other uid).
Qed.

Lemma X5_witness :
  rows_of_others "u1"
    (snd (chat_with_bot "u1" (ChatRequest.mk None "remove 2 and 1")
            shared_world))
  = rows_of_others "u1" shared_world.
Proof.
  refine (proj1 (proj2 (X5_chat_isolation "u1"
                          (ChatRequest.mk None "remove 2 and 1")
                          shared_world _))).
  unfold unique_keys. cbn.
  repeat (constructor; [cbn; intuition discriminate |]). constructor.
Defined.

Lemma mapM_task_line (rows : list Task) (w : world) :
  mapM task_line (map task_view rows) w = (Ok (map row_line rows), w).
Proof.
  induction rows as [|t rows IH]; [reflexivity |].
  cbn [map mapM]. unfold bind at 1.
  change (task_line (task_view t) w) with (Ok (row_line t), w).
  unfold bind at 1. rewrite IH. reflexivity.
Qed.

(** X6.  A message with the list intent is always answered, never with the
    HTTP 500, and the world is left alone.  The status filter is "pending"
    when the message says "pending", else "completed" when it says
    "completed" or "done", else "all"; the reply names the filter and has
    one line per row of the caller that passes it, in table order, with key,
    title and a mark for the completion flag, or says that there are none. *)
Theorem X6_chat_list_reply (uid : string) (request : ChatRequest.t)
        (w : world) :
  let message := PyStr.lower (ChatRequest.message request) in
  classify message = IList ->
  chat_with_bot uid request w
  = (inr (reply request
            (list_reply (chat_status message)
               (filter (listedb uid (chat_status message)) (tasks w)))),
     w).
Proof.
  intros message Hc. unfold chat_with_bot, chat_body. fold message.
  rewrite Hc. unfold list_branch. fold (chat_status message).
  set (status := chat_status message).
  change (handle_tool_call "list_tasks"
            {| kw_user_id := Some uid; kw_task_id := None; kw_title := None;
               kw_description := None; kw_status := Some status |})
    with (l <- list_tasks_tool uid status ;; ret (RList l)).
  unfold bind at 1 2 3. rewrite list_tasks_tool_eq. unfold ret at 1.
  destruct (filter (listedb uid status) (tasks w)) as [|t rows] eqn:E.
  - reflexivity.
  - change (map task_view (t :: rows))
      with (task_view t :: map task_view rows).
    cbv iota beta.
    change (task_view t :: map task_view rows)
      with (map task_view (t :: rows)).
    unfold bind. rewrite mapM_task_line. reflexivity.
Qed.

Lemma X6_witness :
  chat_with_bot "u1" (ChatRequest.mk (Some 7%Z) "Show what is DONE")
    shared_world
  = (inr {| ChatResponse.conversation_id := 7;
            ChatResponse.response :=
              "📋 Your completed tasks:" ++ nl ++ "• 5: pay rent (✅)" |},
     shared_world).
Proof.
  exact (X6_chat_list_reply "u1" (ChatRequest.mk (Some 7%Z) "Show what is DONE")
           shared_world eq_refl).
Defined.

(** X7.  An ASCII message with the add intent is always answered.  When
    the title extracted from the lowercased message is empty, the reply says
    so and the world is left alone.  Otherwise exactly one row is appended
    for the caller, under a key the table did not hold, with the extracted
    title, the description "Added via chat: " followed by the message as it
    was sent, and the flag unset, and the reply confirms the title. *)
Theorem X7_chat_add (uid : string) (request : ChatRequest.t) (w : world) :
  let message := PyStr.lower (ChatRequest.message request) in
  PyStr.isascii (ChatRequest.message request) = true ->
  classify message = IAdd ->
  exists t,
    extract_task_title message = Ok t
    /\ (t = "" -> chat_with_bot uid request w = (inr (reply request no_title), w))
    /\ (t <> "" ->
        exists w' row,
          chat_with_bot uid request w
          = (inr (reply request ("✅ Task added: " ++ t)), w')
          /\ appended w w' row
          /\ user_id row = uid
          /\ title row = t
          /\ description row
             = Some ("Added via chat: " ++ ChatRequest.message request)
          /\ completed row = false).
Proof.
  intros message _ Hc.
  destruct (extract_task_title_eq message) as [g [_ Ht]].
  exists (PyStr.strip g). split; [exact Ht |].
  unfold chat_with_bot, chat_body. fold message. rewrite Hc.
  unfold add_branch. unfold bind at 1 2. unfold lift. rewrite Ht.
  split.
  - intros ->. reflexivity.
  - intros Hne. destruct (PyStr.strip g) as [|c t] eqn:E; [congruence |].
    cbn [PyStr.truthy].
    exists (snd (add_task_tool uid (String c t)
                   ("Added via chat: " ++ ChatRequest.message request) w)),
      (added_row w uid (String c t)
         ("Added via chat: " ++ ChatRequest.message request)).
    split; [reflexivity |]. split; [| repeat split].
    split; [reflexivity | apply fresh_id_new].
Qed.

Lemma X7_witness :
  exists t,
    extract_task_title (PyStr.lower "Please ADD task Feed Cat") = Ok t
    /\ (t <> "" ->
        exists w' row,
          chat_with_bot "u2" (ChatRequest.mk None "Please ADD task Feed Cat")
            shared_world
          = (inr (reply (ChatRequest.mk None "Please ADD task Feed Cat")
                    ("✅ Task added: " ++ t)), w')
          /\ appended shared_world w' row
          /\ user_id row = "u2"
          /\ title row = t
          /\ description row
             = Some ("Added via chat: " ++ "Please ADD task Feed Cat")
          /\ completed row = false).
Proof.
  destruct (X7_chat_add "u2" (ChatRequest.mk None "Please ADD task Feed Cat")
              shared_world eq_refl eq_refl) as [t [H1 [_ H3]]].
  exists t. split; [exact H1 | exact H3].
Defined.

(** X8.  An ASCII complete, delete or update message that names, by its
    first run of digits, a non-zero key (a signed 64-bit integer) whose row
    the caller owns is carried out and confirmed with the row's title: the
    row is stored completed, or removed, or stored under the title extracted
    from the lowercased message. *)
Theorem X8_chat_mutations (uid : string) (request : ChatRequest.t)
        (w : world) (n : Z) (t : Task) :
  let message := PyStr.lower (ChatRequest.message request) in
  PyStr.isascii (ChatRequest.message request) = true ->
  extract_task_id message = Ok (Some n) ->
  n <> 0%Z -> in_int64 n = true ->
  find (fun r => (id r =? n)%Z) (tasks w) = Some t ->
  user_id t = uid ->
  (classify message = IComplete ->
   exists w',
     chat_with_bot uid request w
     = (inr (reply request ("✅ Task completed: " ++ title t)), w')
     /\ tasks w'
        = map (fun r => if (id r =? n)%Z then completed_row w t else r)
              (tasks w))
  /\ (classify message = IDelete ->
      exists w',
        chat_with_bot uid request w
        = (inr (reply request ("🗑️ Task deleted: " ++ title t)), w')
        /\ tasks w' = filter (fun r => negb (id r =? n)%Z) (tasks w))
  /\ (classify message = IUpdate ->
      exists t2,
        extract_task_title message = Ok t2
        /\ (t2 = "" ->
            chat_with_bot uid request w = (inr (reply request no_id_update), w))
        /\ (t2 <> "" ->
            exists w' row,
              chat_with_bot uid request w
              = (inr (reply request ("✏️ Task updated: " ++ t2)), w')
              /\ find (fun r => (id r =? n)%Z) (tasks w') = Some row
              /\ title row = t2
              /\ description row = description t
              /\ completed row = completed t)).
Proof.
  intros message _ Hid Hn _ Hf Hu.
  pose proof (find_some _ _ Hf) as [_ Ht]. apply Z.eqb_eq in Ht.
  apply Z.eqb_neq in Hn.
  pose proof (load_owned_found w uid n t Hf Hu) as Hl.
  split; [| split].
  - intros Hc. unfold chat_with_bot, chat_body. fold message. rewrite Hc.
    unfold complete_branch. unfold bind at 1 2. unfold lift. rewrite Hid.
    cbn [id_truthy]. rewrite Hn. cbn [negb].
    change (handle_tool_call "complete_task" (id_kwargs uid (Some n) None))
      with (d <- complete_task_tool uid n ;; ret (RDict d)).
    unfold complete_task_tool, bind. rewrite Hl.
    unfold utcnow, Session.update, ret. cbn [fst snd tasks clock id title].
    eexists. split; [reflexivity |]. cbn [tasks]. unfold completed_row.
    now rewrite Ht.
  - intros Hc. unfold chat_with_bot, chat_body. fold message. rewrite Hc.
    unfold delete_branch. unfold bind at 1 2. unfold lift. rewrite Hid.
    cbn [id_truthy]. rewrite Hn. cbn [negb].
    change (handle_tool_call "delete_task" (id_kwargs uid (Some n) None))
      with (d <- delete_task_tool uid n ;; ret (RDict d)).
    unfold delete_task_tool, bind. rewrite Hl.
    unfold Session.delete, ret. cbn [fst snd tasks clock id title].
    eexists. split; [reflexivity |]. cbn [tasks]. now rewrite Ht.
  - intros Hc. destruct (extract_task_title_eq message) as [g [_ Htt]].
    exists (PyStr.strip g). split; [exact Htt |].
    unfold chat_with_bot, chat_body. fold message. rewrite Hc.
    unfold update_branch, bind, lift. rewrite Hid, Htt. cbv beta iota.
    cbn [id_truthy]. rewrite Hn. cbn [negb andb].
    split.
    + intros ->. reflexivity.
    + intros Hne. destruct (PyStr.strip g) as [|c t2] eqn:E; [congruence |].
      cbn [PyStr.truthy].
      change (handle_tool_call "update_task"
                (id_kwargs uid (Some n) (Some (String c t2))))
        with (d <- update_task_tool uid n (Some (String c t2)) None ;;
              ret (RDict d)).
      unfold update_task_tool, bind. rewrite Hl.
      unfold utcnow, Session.update, ret.
      cbv beta iota. cbn [fst snd tasks clock id title PyStr.truthy].
      eexists. eexists. split; [reflexivity |]. cbn [tasks].
      split.
      * rewrite Ht.
        apply (find_replaced n (tasks w) t); [exact Hf | reflexivity].
      * repeat split.
Qed.

Lemma X8_witness :
  exists w',
    chat_with_bot "u1" (ChatRequest.mk None "I FINISHED task 1 today")
      shared_world
    = (inr (reply (ChatRequest.mk None "I FINISHED task 1 today")
              "✅ Task completed: buy milk"), w').
Proof.
  destruct (X8_chat_mutations "u1"
              (ChatRequest.mk None "I FINISHED task 1 today") shared_world 1
              _ eq_refl eq_refl ltac:(discriminate) eq_refl eq_refl eq_refl)
    as [H _].
  destruct (H eq_refl) as [w' [H1 _]]. exists w'. exact H1.
Defined.

(** X9.  A message in which none of the eleven trigger words occurs, in
    whatever letter case, is answered with the help text, and the world is
    left alone. *)
Theorem X9_chat_help (uid : string) (request : ChatRequest.t) (w : world) :
  (forall kw, In kw triggers ->
              ~ Contains kw (PyStr.lower (ChatRequest.message request))) ->
  chat_with_bot uid request w = (inr (reply request help_text), w).
Proof.
  intros H.
  assert (Hb : forall kw, In kw triggers ->
                 PyStr.contains kw (PyStr.lower (ChatRequest.message request))
                 = false)
    by (intros kw Hin; apply contains_false; now apply H).
  unfold chat_with_bot, chat_body, classify.
  rewrite !Hb by (unfold triggers; simpl; tauto).
  reflexivity.
Qed.

Lemma X9_witness :
  chat_with_bot "u1" (ChatRequest.mk None "What's pending?") shared_world
  = (inr (reply (ChatRequest.mk None "What's pending?") help_text),
     shared_world).
Proof.
  apply X9_chat_help. intros kw Hin. apply contains_false.
  unfold triggers in Hin. simpl in Hin.
  repeat (destruct Hin as [<- | Hin]; [reflexivity |]). destruct Hin.
Defined.

(** ** More on the extraction helpers *)

Section TrimFacts.

Lemma lstrip_fixed (s : string) :
  match s with
  | "" => True
  | String c _ => PyStr.isspace c = false
  end ->
  PyStr.lstrip s = s.
Proof. destruct s as [|c s]; simpl; [trivial |]. now intros ->. Qed.

Lemma lstrip_clean (s : string) :
  match PyStr.lstrip s with
  | "" => True
  | String c _ => PyStr.isspace c = false
  end.
Proof.
  destruct (PyStr.lstrip s) as [|c r] eqn:E; [exact I |].
  apply (lstrip_head _ _ _ E).
Qed.

Lemma rstrip_keeps_head (s : string) :
  match s with
  | "" => True
  | String c _ => PyStr.isspace c = false
  end ->
  match PyStr.rstrip s with
  | "" => True
  | String c _ => PyStr.isspace c = false
  end.
Proof.
  intros H. destruct (PyStr.rstrip s) as [|c r] eqn:E; [exact I |].
  destruct (rstrip_head _ _ _ E) as [s' ->]. exact H.
Qed.

Lemma rstrip_idem (s : string) :
  PyStr.rstrip (PyStr.rstrip s) = PyStr.rstrip s.
Proof.
  induction s as [|c s IH]; [reflexivity |].
  cbn [PyStr.rstrip]. destruct (PyStr.rstrip s) as [|d r] eqn:E.
  - destruct (PyStr.isspace c) eqn:Hc; [reflexivity |].
    cbn [PyStr.rstrip]. now rewrite Hc.
  - cbn [PyStr.rstrip] in *. now rewrite IH.
Qed.

Lemma strip_idem (s : string) :
  PyStr.strip (PyStr.strip s) = PyStr.strip s.
Proof.
  unfold PyStr.strip.
  rewrite (lstrip_fixed (PyStr.rstrip (PyStr.lstrip s))).
  - apply rstrip_idem.
  - apply rstrip_keeps_head, lstrip_clean.
Qed.

Lemma lstrip_suffix (s : string) : exists pre, s = pre ++ PyStr.lstrip s.
Proof.
  induction s as [|c s IH]; [now exists "" |].
  simpl. destruct (PyStr.isspace c).
  - destruct IH as [pre IH]. exists (String c pre). simpl. now rewrite <- IH.
  - now exists "".
Qed.

Lemma rstrip_prefix (s : string) : exists suf, s = PyStr.rstrip s ++ suf.
Proof.
  induction s as [|c s IH]; [now exists "" |].
  destruct IH as [suf IH]. cbn [PyStr.rstrip].
  destruct (PyStr.rstrip s) as [|d r].
  - destruct (PyStr.isspace c).
    + now exists (String c s).
    + exists suf. simpl in *. now rewrite <- IH.
  - exists suf. simpl in *. now rewrite <- IH.
Qed.

Lemma Contains_refl (s : string) : Contains s s.
Proof. exists "", "". simpl. now rewrite app_nil_r. Qed.

Lemma Contains_trans (a b c : string) :
  Contains a b -> Contains b c -> Contains a c.
Proof.
  intros [p1 [s1 ->]] [p2 [s2 ->]]. exists (p2 ++ p1), (s1 ++ s2).
  now rewrite !app_assoc.
Qed.

Lemma Contains_strip (s : string) : Contains (PyStr.strip s) s.
Proof.
  unfold PyStr.strip. destruct (lstrip_suffix s) as [pre Hp].
  destruct (rstrip_prefix (PyStr.lstrip s)) as [suf Hs].
  exists pre, suf. now rewrite <- Hs.
Qed.

End TrimFacts.

Lemma Matches_capture (r : Re.regex) (u : string) g g' :
  Matches r u g g' ->
  g' = g \/ exists t, g' = Some t /\ Contains t u.
Proof.
  induction 1; try (now left).
  - destruct IHMatches2 as [-> | [t [-> [p [s ->]]]]].
    + destruct IHMatches1 as [-> | [t [-> [p [s ->]]]]]; [now left |].
      right. exists t. split; [reflexivity |]. exists p, (s ++ u2).
      now rewrite !app_assoc.
    + right. exists t. split; [reflexivity |]. exists (u1 ++ p), s.
      now rewrite !app_assoc.
  - assumption.
  - assumption.
  - assumption.
  - right. exists u. split; [reflexivity | apply Contains_refl].
Qed.

Lemma search_capture (r : Re.regex) (m : string) (a : Re.Match) (t : string) :
  Re.search r m = Some a -> Re.group1 a = Some t -> Contains t m.
Proof.
  intros Hs Hg. apply search_some in Hs. destruct Hs as [pre [sp [-> Hm]]].
  unfold Re.match_at in Hm. apply rmatch_sound in Hm.
  destruct Hm as [u [s' [g' [-> [M H]]]]]. injection H as <-.
  cbn in Hg. subst g'.
  destruct (Matches_capture _ _ _ _ M) as [E | [t' [E [p [s ->]]]]];
    [discriminate |].
  injection E as <-. exists (pre ++ p), (s ++ s'). now rewrite !app_assoc.
Qed.

Lemma title_source_part (m g : string) :
  title_source m = Some g -> Contains g m.
Proof.
  unfold title_source.
  destruct (Re.search Patterns.add_task_to m) as [a|] eqn:E1;
    [now apply (search_capture _ _ _ _ E1) |].
  destruct (Re.search Patterns.create_task_to m) as [a|] eqn:E2;
    [now apply (search_capture _ _ _ _ E2) |].
  destruct (Re.search Patterns.to_my_todo m) as [a|] eqn:E3;
    [now apply (search_capture _ _ _ _ E3) |].
  intros [= <-]. apply Contains_refl.
Qed.

(** X10.  The title [extract_task_title] returns is a contiguous part of
    the message, nothing added and nothing rewritten, and it is trimmed: it
    has no whitespace at either end, so that trimming it again changes
    nothing. *)
Theorem X10_title_is_trimmed_part (m t : string) :
  extract_task_title m = Ok t ->
  Contains t m /\ PyStr.strip t = t.
Proof.
  intros H. destruct (extract_task_title_eq m) as [g [Hg E]].
  rewrite E in H. injection H as <-. split.
  - eapply Contains_trans; [apply Contains_strip |].
    now apply title_source_part.
  - apply strip_idem.
Qed.

Lemma X10_witness :
  Contains "water the plants" "  water the plants to my TODO list "
  /\ PyStr.strip "water the plants" = "water the plants".
Proof.
  apply (X10_title_is_trimmed_part
           "  water the plants to my TODO list " "water the plants").
  reflexivity.
Defined.

Lemma rmatch_lit_prefix {A} (w s rest : string) g
      (k : string -> option string -> option A) :
  s = w ++ rest -> Re.rmatch (Re.lit w) s g k = k rest g.
Proof.
  intros ->. induction w as [|c w IH]; [reflexivity |].
  cbn [Re.lit Re.rmatch append Re.cmatch]. now rewrite Ascii.eqb_refl.
Qed.

Lemma rmatch_lit_mismatch {A} (c d : ascii) (w s : string) g
      (k : string -> option string -> option A) :
  Ascii.eqb (PyStr.lower_char d) (PyStr.lower_char c) = false ->
  Re.rmatch (Re.lit (String c w)) (String d s) g k = None.
Proof. intros H. cbn [Re.lit Re.rmatch Re.cmatch]. now rewrite H. Qed.

Lemma spaces_one {A} (c : ascii) (s : string) g
      (k : string -> option string -> option A) :
  PyStr.isspace c = true -> head_clean s ->
  Re.rmatch Patterns.spaces (String c s) g k = k s g.
Proof.
  intros Hc Hs. unfold Patterns.spaces. cbn [Re.rmatch Re.plus_loop Re.cmatch].
  rewrite Hc. destruct s as [|y s]; [reflexivity |].
  cbn [Re.plus_loop Re.cmatch]. simpl in Hs. now rewrite Hs.
Qed.

Lemma take_class_all_id cl (s : string) :
  all_chars (Re.cmatch cl) s = true -> take_class cl s = s.
Proof.
  induction s as [|c s IH]; [reflexivity |]. simpl.
  intros H. apply andb_true_iff in H. destruct H as [-> H]. now rewrite IH.
Qed.

Lemma opt_taken {A} (r : Re.regex) (s : string) g
      (k : string -> option string -> option A) (a : A) :
  Re.rmatch r s g k = Some a -> Re.rmatch (Re.Opt r) s g k = Some a.
Proof. intros H. cbn [Re.rmatch]. now rewrite H. Qed.

Lemma opt_skipped {A} (r : Re.regex) (s : string) g
      (k : string -> option string -> option A) :
  Re.rmatch r s g k = None -> Re.rmatch (Re.Opt r) s g k = k s g.
Proof. intros H. cbn [Re.rmatch]. now rewrite H. Qed.

Lemma seq_nil {A} (s : string) g (k : string -> option string -> option A) :
  Re.rmatch (Patterns.seq []) s g k = k s g.
Proof. reflexivity. Qed.

Ltac lit_step :=
  rewrite seq_cons; erewrite rmatch_lit_prefix by reflexivity; cbv beta.
Ltac space_step :=
  rewrite seq_cons; erewrite spaces_one by (try reflexivity; assumption);
  cbv beta.
Ltac opt_step := rewrite seq_cons; apply opt_taken.

Lemma search_here (r : Re.regex) (s : string) (a : Re.Match) :
  Re.match_at r s = Some a -> Re.search r s = Some a.
Proof. intros H. destruct s; cbn [Re.search]; now rewrite H. Qed.

Lemma add_a_task_to (x : ascii) (r : string) :
  PyStr.isspace x = false ->
  Re.match_at Patterns.add_task_to ("add a task to " ++ String x r)
  = Some {| Re.group1 := Some (String x (take_class Re.CDot r)) |}.
Proof.
  intros Hx. assert (Hh : head_clean (String x r)) by exact Hx.
  unfold Re.match_at, Patterns.add_task_to, Patterns.task_to.
  lit_step. space_step. opt_step. lit_step. space_step. rewrite seq_nil.
  lit_step. space_step. opt_step. lit_step. space_step. rewrite seq_nil.
  change (Patterns.seq [Re.Group (Re.Plus Re.CDot)])
    with (Re.Seq (Re.Group (Re.Plus Re.CDot)) Re.Eps).
  rewrite group_plus_last. now rewrite (space_not_newline x Hx).
Qed.

Lemma add_task_to (x : ascii) (r : string) :
  PyStr.isspace x = false ->
  Re.match_at Patterns.add_task_to ("add task to " ++ String x r)
  = Some {| Re.group1 := Some (String x (take_class Re.CDot r)) |}.
Proof.
  intros Hx. assert (Hh : head_clean (String x r)) by exact Hx.
  unfold Re.match_at, Patterns.add_task_to, Patterns.task_to.
  lit_step. space_step. rewrite seq_cons.
  rewrite opt_skipped
    by (rewrite seq_cons; apply rmatch_lit_mismatch; reflexivity).
  lit_step. space_step. opt_step. lit_step. space_step. rewrite seq_nil.
  change (Patterns.seq [Re.Group (Re.Plus Re.CDot)])
    with (Re.Seq (Re.Group (Re.Plus Re.CDot)) Re.Eps).
  rewrite group_plus_last. now rewrite (space_not_newline x Hx).
Qed.

(** X11.  The plain phrasings of the add command give back the title as it
    was written: for a non-empty ASCII title with no line break in it and no
    whitespace at either end, "add a task to " or "add task to " followed by
    the title extracts exactly the title. *)
Theorem X11_add_phrase_round_trip (t : string) :
  PyStr.isascii t = true ->
  t <> "" -> PyStr.strip t = t ->
  all_chars (Re.cmatch Re.CDot) t = true ->
  extract_task_title ("add a task to " ++ t) = Ok t
  /\ extract_task_title ("add task to " ++ t) = Ok t.
Proof.
  intros _ Hne Hs Hl.
  destruct (trimmed_shape t Hne Hs) as [_ [x [r [-> Hx]]]].
  assert (Hr : take_class Re.CDot r = r).
  { apply take_class_all_id. cbn [all_chars] in Hl.
    apply andb_true_iff in Hl. tauto. }
  unfold extract_task_title, title_patterns. cbn [first_title].
  rewrite (search_here _ _ _ (add_a_task_to x r Hx)).
  rewrite (search_here _ _ _ (add_task_to x r Hx)).
  unfold group1_text. cbn [Re.group1]. now rewrite Hr, Hs.
Qed.

Lemma X11_witness :
  extract_task_title ("add a task to " ++ "to do: call Bob  at 5") 
  = Ok "to do: call Bob  at 5".
Proof.
  apply (X11_add_phrase_round_trip "to do: call Bob  at 5");
    [reflexivity | discriminate | reflexivity | reflexivity].
Defined.

Section LowerFacts.

Lemma isspace_lower_char (c : ascii) :
  PyStr.isspace (PyStr.lower_char c) = PyStr.isspace c.
Proof. destruct c as [[] [] [] [] [] [] [] []]; reflexivity. Qed.

Lemma dot_lower_char (c : ascii) :
  Re.cmatch Re.CDot (PyStr.lower_char c) = Re.cmatch Re.CDot c.
Proof. destruct c as [[] [] [] [] [] [] [] []]; reflexivity. Qed.

Lemma lstrip_lower (s : string) :
  PyStr.lstrip (PyStr.lower s) = PyStr.lower (PyStr.lstrip s).
Proof.
  induction s as [|c s IH]; [reflexivity |].
  cbn [PyStr.lower PyStr.lstrip]. rewrite isspace_lower_char.
  now destruct (PyStr.isspace c).
Qed.

Lemma rstrip_lower (s : string) :
  PyStr.rstrip (PyStr.lower s) = PyStr.lower (PyStr.rstrip s).
Proof.
  induction s as [|c s IH]; [reflexivity |].
  cbn [PyStr.lower PyStr.rstrip]. rewrite IH, isspace_lower_char.
  destruct (PyStr.rstrip s); cbn [PyStr.lower]; [| reflexivity].
  now destruct (PyStr.isspace c).
Qed.

Lemma strip_lower (s : string) :
  PyStr.strip (PyStr.lower s) = PyStr.lower (PyStr.strip s).
Proof. unfold PyStr.strip. now rewrite lstrip_lower, rstrip_lower. Qed.

Lemma all_dot_lower (s : string) :
  all_chars (Re.cmatch Re.CDot) (PyStr.lower s)
  = all_chars (Re.cmatch Re.CDot) s.
Proof.
  induction s as [|c s IH]; [reflexivity |].
  cbn [PyStr.lower all_chars]. now rewrite dot_lower_char, IH.
Qed.

End LowerFacts.

(** X12.  The chat stores titles in lower case.  For a non-empty ASCII
    title with no line break in it and no whitespace at either end, the
    message "Add a task to " followed by the title appends one row for the
    caller, under a key the table did not hold, whose title is the
    lowercased title and whose description quotes the message as it was
    sent, and the reply confirms the lowercased title. *)
Theorem X12_chat_add_lowercases (uid : string) (conv : option Z)
        (t : string) (w : world) :
  PyStr.isascii t = true ->
  t <> "" -> PyStr.strip t = t ->
  all_chars (Re.cmatch Re.CDot) t = true ->
  let request := ChatRequest.mk conv ("Add a task to " ++ t) in
  exists w' row,
    chat_with_bot uid request w
    = (inr (reply request ("✅ Task added: " ++ PyStr.lower t)), w')
    /\ appended w w' row
    /\ user_id row = uid
    /\ title row = PyStr.lower t
    /\ description row = Some ("Added via chat: Add a task to " ++ t)
    /\ completed row = false.
Proof.
  intros _ Hne Hs Hl request.
  assert (Hm : PyStr.lower (ChatRequest.message request)
               = "add a task to " ++ PyStr.lower t)
    by (unfold request; cbn [ChatRequest.message]; now rewrite lower_app).
  assert (Ht : extract_task_title ("add a task to " ++ PyStr.lower t)
               = Ok (PyStr.lower t)).
  { assert (Hs' : PyStr.strip (PyStr.lower t) = PyStr.lower t)
      by now rewrite strip_lower, Hs.
    assert (Hne' : PyStr.lower t <> "")
      by (destruct t; [congruence | discriminate]).
    destruct (trimmed_shape _ Hne' Hs') as [_ [x [r [E Hx]]]].
    rewrite <- all_dot_lower in Hl. rewrite E in *.
    cbn [all_chars] in Hl. apply andb_true_iff in Hl.
    unfold extract_task_title, title_patterns. cbn [first_title].
    rewrite (search_here _ _ _ (add_a_task_to x r Hx)).
    unfold group1_text. cbn [Re.group1].
    rewrite (take_class_all_id Re.CDot r) by tauto. now rewrite Hs'. }
  unfold chat_with_bot, chat_body. rewrite Hm.
  change (classify ("add a task to " ++ PyStr.lower t)) with IAdd.
  unfold add_branch. unfold bind at 1 2. unfold lift. rewrite Ht.
  destruct (PyStr.lower t) as [|c t'] eqn:E.
  - destruct t; [congruence | discriminate].
  - cbn [PyStr.truthy].
    exists (snd (add_task_tool uid (String c t')
                   ("Added via chat: Add a task to " ++ t) w)),
      (added_row w uid (String c t') ("Added via chat: Add a task to " ++ t)).
    split; [reflexivity |]. split; [| repeat split].
    split; [reflexivity | apply fresh_id_new].
Qed.

Lemma X12_witness :
  exists w' row,
    chat_with_bot "u2" (ChatRequest.mk None ("Add a task to " ++ "Call BOB"))
      shared_world
    = (inr (reply (ChatRequest.mk None ("Add a task to " ++ "Call BOB"))
              "✅ Task added: call bob"), w')
    /\ title row = "call bob".
Proof.
  destruct (X12_chat_add_lowercases "u2" None "Call BOB" shared_world
              eq_refl ltac:(discriminate) eq_refl eq_refl)
    as [w' [row [H1 [_ [_ [H4 _]]]]]].
  exists w', row. split; [exact H1 | exact H4].
Defined.

Lemma digit_val_nonneg (c : ascii) :
  PyStr.isdigit c = true -> (0 <= PyStr.digit_val c <= 9)%Z.
Proof.
  destruct c as [[] [] [] [] [] [] [] []]; vm_compute; intuition congruence.
Qed.

Lemma int_acc_nonneg (s : string) :
  forall acc,
    (0 <= acc)%Z -> all_chars PyStr.isdigit s = true ->
    (acc <= PyStr.int_acc acc s)%Z.
Proof.
  induction s as [|c s IH]; intros acc Ha Hs; cbn [PyStr.int_acc]; [lia |].
  cbn [all_chars] in Hs. apply andb_true_iff in Hs. destruct Hs as [Hc Hs].
  pose proof (digit_val_nonneg c Hc).
  specialize (IH (10 * acc + PyStr.digit_val c)%Z ltac:(lia) Hs). lia.
Qed.

(** X13.  The id [extract_task_id] returns is never negative, a sign before
    the digits is not read; and it is the same on the message and on the
    lowercased message the chat passes in. *)
Theorem X13_task_id_value (m : string) :
  extract_task_id (PyStr.lower m) = extract_task_id m
  /\ forall n, extract_task_id m = Ok (Some n) -> (0 <= n)%Z.
Proof.
  split.
  - now rewrite !extract_task_id_eq, first_digits_lower.
  - intros n. rewrite extract_task_id_eq.
    destruct (first_digits m) as [ds|] eqn:E; [| discriminate].
    apply first_digits_digits in E. destruct E as [_ Hd].
    unfold py_int. destruct (String.length ds <=? max_str_digits)%nat;
      [| discriminate].
    intros [= <-]. apply (int_acc_nonneg ds 0%Z); [lia | exact Hd].
Qed.

Lemma X13_witness :
  extract_task_id "Delete TASK -5" = Ok (Some 5%Z) /\ (0 <= 5)%Z.
Proof.
  split; [reflexivity |].
  exact (proj2 (X13_task_id_value "Delete TASK -5") 5%Z eq_refl).
Defined.

(** ** More on listing *)

Lemma filter_split_length {A} (p : A -> bool) (l : list A) :
  List.length l
  = (List.length (filter p l) + List.length (filter (fun x => negb (p x)) l))%nat.
Proof.
  induction l as [|x l IH]; [reflexivity |]. simpl.
  destruct (p x); simpl; lia.
Qed.

Lemma view_completed (t : Task) :
  Dict.lookup "completed" (task_view t) = Some (VBool (completed t)).
Proof. reflexivity. Qed.

(** X14.  The "pending" and the "completed" listing of a user split the
    "all" listing: every entry of "all" is in one of the two, the entries of
    the two are entries of "all", no entry is in both, and the lengths add
    up. *)
Theorem X14_listing_partition (w : world) (uid : string) :
  exists la lp lc,
    list_tasks_tool uid "all" w = (Ok la, w)
    /\ list_tasks_tool uid "pending" w = (Ok lp, w)
    /\ list_tasks_tool uid "completed" w = (Ok lc, w)
    /\ List.length la = (List.length lp + List.length lc)%nat
    /\ (forall e, In e la <-> In e lp \/ In e lc)
    /\ (forall e, In e lp -> In e lc -> False).
Proof.
  eexists _, _, _. rewrite !list_tasks_tool_eq.
  split; [reflexivity |]. split; [reflexivity |]. split; [reflexivity |].
  set (own := fun t => String.eqb (user_id t) uid).
  assert (Ea : filter (listedb uid "all") (tasks w) = filter own (tasks w))
    by (apply filter_ext; intros t; apply andb_true_r).
  assert (Ep : filter (listedb uid "pending") (tasks w)
               = filter (fun t => negb (completed t)) (filter own (tasks w)))
    by (rewrite filter_filter; apply filter_ext; intros t; reflexivity).
  assert (Ec : filter (listedb uid "completed") (tasks w)
               = filter (fun t => completed t) (filter own (tasks w)))
    by (rewrite filter_filter; apply filter_ext; intros t; reflexivity).
  rewrite Ea, Ep, Ec. clear Ea Ep Ec.
  set (rows := filter own (tasks w)). split; [| split].
  - rewrite !length_map.
    rewrite (filter_split_length (fun t => completed t) rows). lia.
  - intros e. rewrite !in_map_iff. split.
    + intros [t [<- Ht]]. destruct (completed t) eqn:Hc.
      * right. exists t. split; [reflexivity |]. apply filter_In. now split.
      * left. exists t. split; [reflexivity |]. apply filter_In.
        split; [assumption | now rewrite Hc].
    + intros [[t [<- Ht]] | [t [<- Ht]]]; apply filter_In in Ht;
        exists t; tauto.
  - intros e Hp Hc. apply in_map_iff in Hp, Hc.
    destruct Hp as [t1 [<- H1]]. destruct Hc as [t2 [E H2]].
    apply filter_In in H1, H2. destruct H1 as [_ H1], H2 as [_ H2].
    assert (Hv : Dict.lookup "completed" (task_view t2)
                 = Dict.lookup "completed" (task_view t1)) by now rewrite E.
    rewrite !view_completed in Hv. injection Hv as Hv.
    rewrite Hv in H2. now rewrite H2 in H1.
Qed.

(** X15.  The status of a listing is not checked against the three values
    the schema names: any status other than "pending" and "completed", for
    one "Pending" or the empty string, lists all tasks of the user, as "all"
    does. *)
Theorem X15_unknown_status_lists_all (w : world) (uid status : string) :
  status <> "pending" -> status <> "completed" ->
  list_tasks_tool uid status w = list_tasks_tool uid "all" w
  /\ handle_tool_call "list_tasks"
       {| kw_user_id := Some uid; kw_task_id := None; kw_title := None;
          kw_description := None; kw_status := Some status |} w
     = handle_tool_call "list_tasks"
         {| kw_user_id := Some uid; kw_task_id := None; kw_title := None;
            kw_description := None; kw_status := None |} w.
Proof.
  intros Hp Hc.
  assert (E : list_tasks_tool uid status w = list_tasks_tool uid "all" w).
  { rewrite !list_tasks_tool_eq. do 3 f_equal. apply filter_ext. intros t.
    unfold listedb. apply String.eqb_neq in Hp, Hc. now rewrite Hp, Hc. }
  split; [exact E |].
  change (call_list_tasks
            {| kw_user_id := Some uid; kw_task_id := None; kw_title := None;
               kw_description := None; kw_status := Some status |} w
          = call_list_tasks
              {| kw_user_id := Some uid; kw_task_id := None; kw_title := None;
                 kw_description := None; kw_status := None |} w).
  unfold call_list_tasks. cbn [present kw_task_id kw_title kw_description
                                 kw_user_id kw_status orb].
  unfold bind. now rewrite E.
Qed.

Lemma X15_witness :
  list_tasks_tool "u1" "Pending" shared_world
  = list_tasks_tool "u1" "all" shared_world.
Proof.
  apply (X15_unknown_status_lists_all shared_world "u1" "Pending");
    discriminate.
Defined.

(** ** Add, then delete *)

Lemma filter_all {A} (p : A -> bool) (l : list A) :
  (forall x, In x l -> p x = true) -> filter p l = l.
Proof.
  induction l as [|x l IH]; intros H; [reflexivity |]. simpl.
  rewrite (H x (or_introl eq_refl)), IH; [reflexivity |].
  intros y Hy. apply H. now right.
Qed.

(** X16.  Adding a task and then deleting it under the key [add_task]
    returned gives back the table as it was, row for row, whatever the table
    held; the delete returns the title that was added. *)
Theorem X16_add_then_delete (w : world) (uid ttl descr : string) :
  exists k w1 w2,
    add_task_tool uid ttl descr w
    = (Ok [("task_id", VInt k); ("status", VStr "created");
           ("title", VStr ttl)], w1)
    /\ delete_task_tool uid k w1
       = (Ok [("task_id", VInt k); ("status", VStr "deleted");
              ("title", VStr ttl)], w2)
    /\ tasks w2 = tasks w.
Proof.
  set (row := added_row w uid ttl descr).
  exists (id row). eexists. eexists. split; [reflexivity |].
  cbn [fst snd].
  assert (Hf : find (fun r => (id r =? id row)%Z) (tasks w ++ [row])
               = Some row).
  { apply find_last; [| apply Z.eqb_refl].
    intros y Hy. apply Z.eqb_neq. pose proof (fresh_id_above _ _ Hy).
    cbn [id row added_row]. lia. }
  unfold delete_task_tool, bind.
  erewrite load_owned_found; [| exact Hf | reflexivity].
  unfold Session.delete, ret. cbn [fst snd tasks clock id title row added_row].
  split; [reflexivity |]. cbn [tasks].
  rewrite filter_app. cbn [filter id]. rewrite Z.eqb_refl. cbn [negb].
  rewrite List.app_nil_r. apply filter_all.
  intros y Hy. apply negb_true_iff, Z.eqb_neq.
  pose proof (fresh_id_above _ _ Hy). lia.
Qed.

(** ** Messages without a task id *)

Lemma any_digit_lower (s : string) :
  any_char PyStr.isdigit (PyStr.lower s) = any_char PyStr.isdigit s.
Proof.
  induction s as [|c s IH]; [reflexivity |].
  cbn [PyStr.lower any_char]. now rewrite isdigit_lower_char, IH.
Qed.

(** X17.  An ASCII complete, delete or update message with no digit in it
    names no task: the endpoint answers "Could not identify task ID", calls
    no tool and leaves the world alone. *)
Theorem X17_chat_without_id (uid : string) (request : ChatRequest.t)
        (w : world) :
  PyStr.isascii (ChatRequest.message request) = true ->
  any_char PyStr.isdigit (ChatRequest.message request) = false ->
  let message := PyStr.lower (ChatRequest.message request) in
  (classify message = IComplete ->
   chat_with_bot uid request w = (inr (reply request no_id_complete), w))
  /\ (classify message = IDelete ->
      chat_with_bot uid request w = (inr (reply request no_id_delete), w))
  /\ (classify message = IUpdate ->
      chat_with_bot uid request w = (inr (reply request no_id_update), w)).
Proof.
  intros _ Hd message.
  assert (Hid : extract_task_id message = Ok None).
  { rewrite extract_task_id_eq.
    replace (first_digits message) with (@None string); [reflexivity |].
    symmetry. apply first_digits_none. unfold message.
    now rewrite any_digit_lower. }
  split; [| split]; intros Hc; unfold chat_with_bot, chat_body; fold message;
    rewrite Hc.
  - unfold complete_branch, bind, lift. now rewrite Hid.
  - unfold delete_branch, bind, lift. now rewrite Hid.
  - unfold update_branch, bind, lift. rewrite Hid.
    destruct (extract_task_title_eq message) as [g [_ ->]]. reflexivity.
Qed.

Lemma X17_witness :
  chat_with_bot "u1" (ChatRequest.mk None "Complete it") shared_world
  = (inr (reply (ChatRequest.mk None "Complete it") no_id_complete),
     shared_world).
Proof.
  apply (X17_chat_without_id "u1" (ChatRequest.mk None "Complete it")
           shared_world eq_refl eq_refl).
  reflexivity.
Defined.
